(** * Daily-bar pipeline: fetch with retry, cleaning, indicators, batch run

    Shallow embedding of the three scripts of the repository:
    - the batch script and its static-chart twin, which share
      [fetch_a_stock_data], [clean_data], [process_single_stock] and
      [batch_process_a_stocks] verbatim, the twin adding the indicator
      columns inside [plot_stock_data];
    - the interactive script, whose [get_stock_data] fetches, computes the
      same indicator columns and ends with [df.dropna()].

    Numbers.  A float64 cell of a data frame is modelled as [option Qc]:
    [None] is NaN (a missing value), [Some q] an exact rational.  Rounding
    is not modelled.  The only place where the scripts can produce an
    infinity is the quotient [avg_gain / avg_loss] of the RSI; that quotient
    and the RSI column computed from it live in [xfloat], which adds the two
    infinities.  The sign of a zero is not tracked: the RSI formula maps
    both infinities to the same value (lemma [rsi_of_rs_inf]). *)

From Stdlib Require Import Ascii String.
From Stdlib Require Import List Bool Arith ZArith QArith Qcanon Lia Lqa
  Permutation.
Import ListNotations.

Set Implicit Arguments.
Close Scope Qc_scope.
Close Scope Q_scope.
Open Scope nat_scope.

(* ================================================================== *)
(** ** Numbers *)

Module Num.

Definition Qcltb (x y : Qc) : bool :=
  match (x ?= y)%Qc with Lt => true | _ => false end.

Definition Qc_of_Z (z : Z) : Qc := Q2Qc (inject_Z z).
Definition Qc_of_nat (n : nat) : Qc := Qc_of_Z (Z.of_nat n).

(** A float64 cell: a number or NaN. *)
Definition cell := option Qc.

Definition num (z : Z) : cell := Some (Qc_of_Z z).

Definition isna (c : cell) : bool :=
  match c with None => true | Some _ => false end.

Definition notna (c : cell) : bool := negb (isna c).

(** [c > 0] as pandas evaluates it: a comparison with NaN is [False]. *)
Definition gt0 (c : cell) : bool :=
  match c with Some v => Qcltb 0 v | None => false end.

(** [c < 0], likewise. *)
Definition lt0 (c : cell) : bool :=
  match c with Some v => Qcltb v 0 | None => false end.

Definition lift2 (f : Qc -> Qc -> Qc) (a b : cell) : cell :=
  match a, b with
  | Some x, Some y => Some (f x y)
  | _, _ => None
  end.

Definition csub : cell -> cell -> cell := lift2 Qcminus.

Definition cneg (a : cell) : cell :=
  match a with Some x => Some (- x)%Qc | None => None end.

(** The propositional reading of [gt0]. *)
Definition positive (c : cell) : Prop :=
  exists v, c = Some v /\ (0 < v)%Qc.

Definition negative (c : cell) : Prop :=
  exists v, c = Some v /\ (v < 0)%Qc.

Definition nonneg (c : cell) : Prop :=
  exists v, c = Some v /\ (0 <= v)%Qc.

(** Floats that may also be infinite. *)
Inductive xfloat : Type :=
| XNaN
| XFin (q : Qc)
| XPInf
| XNInf.

Definition x_isna (x : xfloat) : bool :=
  match x with XNaN => true | _ => false end.

Definition x_of_cell (c : cell) : xfloat :=
  match c with Some q => XFin q | None => XNaN end.

(** [a / b] on two cells with the IEEE results for a zero divisor:
    [x/0] is an infinity of the sign of [x], [0/0] is NaN. *)
Definition cdiv (a b : cell) : xfloat :=
  match a, b with
  | Some x, Some y =>
      if Qc_eq_bool y 0 then
        if Qcltb 0 x then XPInf
        else if Qcltb x 0 then XNInf
        else XNaN
      else XFin (x / y)%Qc
  | _, _ => XNaN
  end.

(** [k + x] for a finite [k]. *)
Definition xadd_l (k : Qc) (x : xfloat) : xfloat :=
  match x with
  | XNaN => XNaN
  | XFin q => XFin (k + q)%Qc
  | XPInf => XPInf
  | XNInf => XNInf
  end.

(** [k / x] for a finite positive [k]. *)
Definition xdiv_l (k : Qc) (x : xfloat) : xfloat :=
  match x with
  | XNaN => XNaN
  | XFin q => if Qc_eq_bool q 0 then XPInf else XFin (k / q)%Qc
  | XPInf => XFin 0%Qc
  | XNInf => XFin 0%Qc
  end.

(** [k - x] for a finite [k]. *)
Definition xsub_l (k : Qc) (x : xfloat) : xfloat :=
  match x with
  | XNaN => XNaN
  | XFin q => XFin (k - q)%Qc
  | XPInf => XNInf
  | XNInf => XPInf
  end.

End Num.
Import Num.

(* ================================================================== *)
(** ** Log records *)

Module Log.

Inductive level : Type := INFO | WARNING | ERROR.

(** The f-strings of the scripts, one constructor per template, with the
    interpolated values as arguments. *)
Inductive message : Type :=
| MsgEmptyData (symbol_clean : string)
| MsgFetchOk (symbol_clean : string)
| MsgRetry (symbol_clean : string) (n : nat)
| MsgFetchFailed (symbol_clean : string) (e : string)
| MsgCleanedEmpty
| MsgProcessing (symbol : string)
| MsgBatchStart
| MsgStockError (symbol : string) (e : string)
| MsgNothingToSave (symbol : string)
| MsgSaved (symbol : string)
| MsgNothingToPlot (symbol : string)
| MsgNoClose (symbol : string)
| MsgGetDataFailed (e : string).

Definition record : Type := level * message.

Definition is_level (l : level) (r : record) : bool :=
  match l, fst r with
  | INFO, INFO | WARNING, WARNING | ERROR, ERROR => true
  | _, _ => false
  end.

Definition is_retry (r : record) : bool :=
  match r with
  | (WARNING, MsgRetry _ _) => true
  | _ => false
  end.

End Log.
Import Log.

(* ================================================================== *)
(** ** Data frames of daily bars *)

Module Frame.

(** One row.  [Date] is the index (a day number); [Extra] holds the cells
    of the provider's further columns, which the scripts neither rename
    nor drop. *)
Record bar : Type := mkBar {
  Date : Z;
  Open : cell;
  Close : cell;
  High : cell;
  Low : cell;
  Volume : cell;
  Extra : list cell
}.

Definition frame := list bar.

(** [df.empty] *)
Definition empty {A} (df : list A) : bool :=
  match df with [] => true | _ :: _ => false end.

(** The cells of a row, the index excluded. *)
Definition cells (r : bar) : list cell :=
  Open r :: Close r :: High r :: Low r :: Volume r :: Extra r.

Definition set_date (f : Z -> Z) (r : bar) : bar :=
  mkBar (f (Date r)) (Open r) (Close r) (High r) (Low r) (Volume r) (Extra r).

End Frame.
Import Frame.

(* ================================================================== *)
(** ** Cleaner *)

Module Cleaner.

(** [df.dropna(how="all")]: a row goes when every cell is missing. *)
Definition dropna_all (df : frame) : frame :=
  filter (fun r => negb (forallb isna (cells r))) df.

(** [df[df[col] > 0]] *)
Definition keep_gt0 (col : bar -> cell) (df : frame) : frame :=
  filter (fun r => gt0 (col r)) df.

Definition price_columns : list (bar -> cell) := [Open; High; Low; Close].

(** [clean_data]; the input [None] is Python's [None].  The second
    component is what the call logs. *)
Definition clean_data (df : option frame) : option frame * list record :=
  match df with
  | None => (None, [])
  | Some df =>
      if empty df then (None, [])
      else
        let df_clean := dropna_all df in
        let df_clean := keep_gt0 Volume df_clean in
        let df_clean :=
          fold_left (fun acc col => keep_gt0 col acc) price_columns df_clean in
        if empty df_clean then (None, [(WARNING, MsgCleanedEmpty)])
        else (Some df_clean, [])
  end.

(** The rows a call hands on: those of the returned frame, none for [None]. *)
Definition cleaned_rows (df : option frame) : frame :=
  match fst (clean_data df) with Some out => out | None => [] end.

(** Post-condition of the spec for one row. *)
Definition valid_bar (r : bar) : Prop :=
  positive (Volume r) /\ positive (Open r) /\ positive (High r) /\
  positive (Low r) /\ positive (Close r).

(** The same as a test. *)
Definition valid_barb (r : bar) : bool :=
  gt0 (Volume r) && gt0 (Open r) && gt0 (High r) && gt0 (Low r) &&
  gt0 (Close r).

(** Dates unique and increasing, the invariant the spec asks of a series. *)
Fixpoint dates_increasing (df : frame) : bool :=
  match df with
  | [] => true
  | r :: rest =>
      match rest with
      | [] => true
      | r' :: _ => (Date r <? Date r')%Z && dates_increasing rest
      end
  end.

End Cleaner.
Import Cleaner.

(* ================================================================== *)
(** ** Indicator columns

    The static-chart script (inside [plot_stock_data]) and the interactive
    script (inside [get_stock_data]) compute the derived columns with the
    same pandas expressions; they are embedded once, as functions of the
    [Close] column. *)

Module Indicators.

Definition series := list cell.

Definition zip_with {A B C} (f : A -> B -> C) (a : list A) (b : list B)
  : list C :=
  map (fun p => f (fst p) (snd p)) (combine a b).

(** The [n] cells that end at position [t]. *)
Definition window (n t : nat) (s : series) : series :=
  firstn n (skipn (t + 1 - n) s).

(** Sum of a window; NaN as soon as one cell is missing. *)
Fixpoint sum_cells (w : series) : cell :=
  match w with
  | [] => Some 0%Qc
  | c :: w' => lift2 Qcplus c (sum_cells w')
  end.

(** [s.rolling(n).mean()]: [min_periods] defaults to [n], so the mean is
    NaN until [n] cells are seen and whenever the window holds a NaN. *)
Definition rolling_mean (n : nat) (s : series) : series :=
  map (fun t =>
         if t + 1 <? n then None
         else match sum_cells (window n t s) with
              | Some total => Some (total / Qc_of_nat n)%Qc
              | None => None
              end)
      (seq 0 (length s)).

(** [alpha = 2 / (span + 1)] *)
Definition alpha (span : nat) : Qc := (Qc_of_Z 2 / (Qc_of_nat span + 1))%Qc.

(** The recursion of [s.ewm(span, adjust=False).mean()] after the first
    cell: [weighted] is the average so far and [old_wt] its weight.
    Without missing cells this is
    [y_t = (1 - alpha) * y_(t-1) + alpha * x_t]; a missing cell repeats
    the last average and ages its weight by [1 - alpha]
    ([ignore_na] is [False]). *)
Fixpoint ewm_from (a : Qc) (weighted : cell) (old_wt : Qc) (s : series)
  : series :=
  match s with
  | [] => []
  | cur :: rest =>
      match weighted with
      | Some w =>
          let old_wt := (old_wt * (1 - a))%Qc in
          match cur with
          | Some x =>
              let w' := ((old_wt * w + a * x) / (old_wt + a))%Qc in
              Some w' :: ewm_from a (Some w') 1%Qc rest
          | None => Some w :: ewm_from a (Some w) old_wt rest
          end
      | None => cur :: ewm_from a cur 1%Qc rest
      end
  end.

(** [s.ewm(span=span, adjust=False).mean()], seeded with the first cell. *)
Definition ewm_mean (span : nat) (s : series) : series :=
  match s with
  | [] => []
  | x0 :: rest => x0 :: ewm_from (alpha span) x0 1%Qc rest
  end.

(** [s.diff()] *)
Fixpoint diff_from (prev : cell) (s : series) : series :=
  match s with
  | [] => []
  | x :: rest => csub x prev :: diff_from x rest
  end.

Definition diff (s : series) : series :=
  match s with
  | [] => []
  | x :: rest => None :: diff_from x rest
  end.

(** [s.where(cond, other)]: the cell where [cond] holds, [other]
    elsewhere (a NaN cell fails every comparison). *)
Definition where_ (cond : cell -> bool) (other : cell) (s : series) : series :=
  map (fun c => if cond c then c else other) s.

Definition MA (n : nat) (close : series) : series := rolling_mean n close.

Definition MACD (close : series) : series :=
  let exp12 := ewm_mean 12 close in
  let exp26 := ewm_mean 26 close in
  zip_with csub exp12 exp26.

Definition Signal (close : series) : series := ewm_mean 9 (MACD close).

Definition Hist (close : series) : series :=
  zip_with csub (MACD close) (Signal close).

Definition gain (close : series) : series :=
  let delta := diff close in
  where_ gt0 (Some 0%Qc) delta.

Definition loss (close : series) : series :=
  let delta := diff close in
  map cneg (where_ lt0 (Some 0%Qc) delta).

Definition avg_gain (close : series) : series := rolling_mean 14 (gain close).
Definition avg_loss (close : series) : series := rolling_mean 14 (loss close).

Definition rs (close : series) : list xfloat :=
  zip_with cdiv (avg_gain close) (avg_loss close).

Definition hundred : Qc := Qc_of_Z 100.

(** [100 - (100 / (1 + rs))] *)
Definition rsi_of_rs (x : xfloat) : xfloat :=
  xsub_l hundred (xdiv_l hundred (xadd_l 1%Qc x)).

Definition RSI (close : series) : list xfloat := map rsi_of_rs (rs close).

(** A row with its derived cells. *)
Record erow : Type := mkERow {
  base : bar;
  MA5 : cell;
  MA10 : cell;
  MA20 : cell;
  MACD_ : cell;
  Signal_ : cell;
  Hist_ : cell;
  RSI_ : xfloat
}.

(** The frame after the assignments [df['MA5'] = ...] up to
    [df['RSI'] = ...]: every row of [df], in order, with the cells of the
    derived columns at its position. *)
Definition add_indicators (df : frame) : list erow :=
  let close := map Close df in
  map (fun p =>
         let t := snd p in
         mkERow (fst p)
           (nth t (MA 5 close) None) (nth t (MA 10 close) None)
           (nth t (MA 20 close) None)
           (nth t (MACD close) None) (nth t (Signal close) None)
           (nth t (Hist close) None)
           (nth t (RSI close) XNaN))
      (combine df (seq 0 (length df))).

(** A row has no missing cell in any column. *)
Definition complete (r : erow) : bool :=
  forallb notna (cells (base r)) &&
  notna (MA5 r) && notna (MA10 r) && notna (MA20 r) &&
  notna (MACD_ r) && notna (Signal_ r) && notna (Hist_ r) &&
  negb (x_isna (RSI_ r)).

(** [df.dropna()]: a row goes when any of its cells is missing. *)
Definition dropna (rows : list erow) : list erow := filter complete rows.

(** No derived cell of the row is undefined. *)
Definition derived_defined (r : erow) : Prop :=
  isna (MA5 r) = false /\ isna (MA10 r) = false /\ isna (MA20 r) = false /\
  isna (MACD_ r) = false /\ isna (Signal_ r) = false /\
  isna (Hist_ r) = false /\ x_isna (RSI_ r) = false.

(** [|c| < eps] for a defined cell. *)
Definition within (eps : Qc) (c : cell) : Prop :=
  match c with
  | Some v => (- eps < v)%Qc /\ (v < eps)%Qc
  | None => False
  end.

(** Neighbouring cells compare strictly; a NaN compares with nothing. *)
Definition cell_lt (a b : cell) : Prop :=
  match a, b with
  | Some x, Some y => (x < y)%Qc
  | _, _ => False
  end.

Definition strictly_increasing (s : series) : Prop :=
  forall i, S i < length s -> cell_lt (nth i s None) (nth (S i) s None).

Definition strictly_decreasing (s : series) : Prop :=
  forall i, S i < length s -> cell_lt (nth (S i) s None) (nth i s None).

End Indicators.
Import Indicators.

(* ================================================================== *)
(** ** Fetcher *)

Module Fetcher.

(** What one call of [ak.stock_zh_a_hist] does: it raises, or it returns
    a table.  The renaming of the columns and [set_index("Date")] relabel
    the table and leave its cells as they are, so the table is given with
    the roles of its columns. *)
Inductive response : Type :=
| Raises (e : string)
| Returns (df : frame).

(** The provider as the batch scripts see it: the outcome of the [k]-th
    call (from 0) made for a code. *)
Definition provider : Type := string -> nat -> response.

(** What a fetch does besides returning: provider calls and log records,
    in order.  Nothing else happens between two attempts. *)
Inductive event : Type :=
| Call (symbol_clean : string)
| Logged (r : record).

Definition is_call (ev : event) : bool :=
  match ev with Call _ => true | Logged _ => false end.

Fixpoint logged (tr : list event) : list record :=
  match tr with
  | [] => []
  | Call _ :: tr' => logged tr'
  | Logged r :: tr' => r :: logged tr'
  end.

(** [symbol.split(".")[0]] *)
Fixpoint split_dot_head (symbol : string) : string :=
  match symbol with
  | EmptyString => EmptyString
  | String c rest =>
      if Ascii.eqb c "."%char then EmptyString
      else String c (split_dot_head rest)
  end.

Section Fetch.
Variable ak : provider.

(** The body of [for attempt in range(retries)] over the attempts that
    are left; falling off the loop returns [None]. *)
Fixpoint attempts (symbol : string) (retries : nat) (todo : list nat)
  : option frame * list event :=
  match todo with
  | [] => (None, [])
  | attempt :: rest =>
      let symbol_clean := split_dot_head symbol in
      match ak symbol_clean attempt with
      | Returns df =>
          if empty df then
            (None,
             [Call symbol_clean; Logged (WARNING, MsgEmptyData symbol_clean)])
          else
            (Some df,
             [Call symbol_clean; Logged (INFO, MsgFetchOk symbol_clean)])
      | Raises e =>
          if attempt <? retries - 1 then
            let (r, tr) := attempts symbol retries rest in
            (r, Call symbol_clean
                  :: Logged (WARNING, MsgRetry symbol_clean (attempt + 1))
                  :: tr)
          else
            (None,
             [Call symbol_clean;
              Logged (ERROR, MsgFetchFailed symbol_clean e)])
      end
  end.

(** [fetch_a_stock_data(symbol, retries)] *)
Definition fetch_a_stock_data (symbol : string) (retries : nat)
  : option frame * list event :=
  attempts symbol retries (seq 0 retries).

Definition calls_made (symbol : string) (retries : nat) : nat :=
  length (filter is_call (snd (fetch_a_stock_data symbol retries))).

Definition fetch_log (symbol : string) (retries : nat) : list record :=
  logged (snd (fetch_a_stock_data symbol retries)).
End Fetch.

(** The events of the failed attempts [a .. a+k-1], each followed by
    another attempt. *)
Definition retry_events (code : string) (a k : nat) : list event :=
  flat_map (fun j => [Call code; Logged (WARNING, MsgRetry code (j + 1))])
    (seq a k).

(** Calls [0 .. k-1] raise. *)
Definition raises_until (ak : provider) (code : string) (k : nat) : Prop :=
  forall j, j < k -> exists e, ak code j = Raises e.

End Fetcher.
Import Fetcher.

(* ================================================================== *)
(** ** The interactive script *)

Module Interactive.

(** What [get_stock_data] returns: [pd.DataFrame()], which has no column,
    or the frame with all its columns. *)
Inductive dataframe : Type :=
| NoColumns
| Table (rows : list erow).

Definition rows_of (df : dataframe) : list erow :=
  match df with NoColumns => [] | Table rows => rows end.

(** [df.empty] *)
Definition df_empty (df : dataframe) : bool := empty (rows_of df).

Section GetStockData.
(** One call of the provider for a code and a date range. *)
Variable ak : string -> Z -> Z -> response.

(** [get_stock_data(symbol, start_date, end_date)] *)
Definition get_stock_data (symbol : string) (start_date end_date : Z)
  : dataframe * list record :=
  let symbol_clean := split_dot_head symbol in
  match ak symbol_clean start_date end_date with
  | Raises e => (NoColumns, [(ERROR, MsgGetDataFailed e)])
  | Returns df =>
      if empty df then (NoColumns, [])
      else (Table (dropna (add_indicators df)), [])
  end.

(** What the callback hands to the page. *)
Inductive figure : Type :=
| EmptyFigure
| Chart (rows : list erow) (indicators : list string).

(** [update_chart]: an empty frame gives [go.Figure()]. *)
Definition update_chart (symbol : string) (start_date end_date : Z)
    (indicators : list string) : figure :=
  let df := fst (get_stock_data symbol start_date end_date) in
  if df_empty df then EmptyFigure else Chart (rows_of df) indicators.
End GetStockData.

End Interactive.
Import Interactive.

(* ================================================================== *)
(** ** Batch run *)

Module Batch.

(** How a call ends: it returns, or an [Exception] leaves it. *)
Inductive outcome : Type :=
| Done
| Raised (e : string).

Definition a_stock_symbols : list string :=
  ["600519"; "300750"; "601899"]%string.

Definition max_workers : nat := 5.

Section Pipeline.
Variable ak : provider.
(** The file and drawing calls of the two sinks, given by the
    environment: whether they raise, and what they log. *)
Variable to_csv : frame -> string -> outcome.
Variable draw : frame -> string -> outcome * list record.

Definition save_to_csv (df : option frame) (symbol : string)
  : outcome * list record :=
  match df with
  | None => (Done, [(WARNING, MsgNothingToSave symbol)])
  | Some d =>
      if empty d then (Done, [(WARNING, MsgNothingToSave symbol)])
      else match to_csv d symbol with
           | Done => (Done, [(INFO, MsgSaved symbol)])
           | Raised e => (Raised e, [])
           end
  end.

Definition plot_stock_data (df : option frame) (symbol : string)
  : outcome * list record :=
  match df with
  | None => (Done, [(WARNING, MsgNothingToPlot symbol)])
  | Some d =>
      if empty d then (Done, [(WARNING, MsgNothingToPlot symbol)])
      else if empty (filter (fun r => notna (Close r)) d)
      then (Done, [(WARNING, MsgNoClose symbol)])
      else draw d symbol
  end.

(** [process_single_stock]: fetch, clean, save, plot; the first call
    that raises ends it. *)
Definition process_single_stock (symbol : string) : outcome * list record :=
  let l0 := [(INFO, MsgProcessing symbol)] in
  let (raw_data, tr) := fetch_a_stock_data ak symbol 3 in
  let (cleaned_data, l2) := clean_data raw_data in
  let (o3, l3) := save_to_csv cleaned_data symbol in
  match o3 with
  | Raised e => (Raised e, l0 ++ logged tr ++ l2 ++ l3)
  | Done =>
      let (o4, l4) := plot_stock_data cleaned_data symbol in
      (o4, l0 ++ logged tr ++ l2 ++ l3 ++ l4)
  end.

(** Life of a submitted task: in the queue of the pool, on a worker,
    finished with its outcome kept in its future, and last handed to
    the loop over [as_completed]. *)
Inductive task_state : Type :=
| Queued
| Running
| Finished (o : outcome)
| Handled (o : outcome).

(** The thread that runs [batch_process_a_stocks]. *)
Inductive main_state : Type :=
| Looping
| Returned
| Propagated (e : string).

Record state : Type := mkState {
  tasks : list (string * task_state);
  main : main_state;
  main_log : list record
}.

(** All symbols submitted, nothing started. *)
Definition init (symbols : list string) : state :=
  mkState (map (fun symbol => (symbol, Queued)) symbols) Looping
    [(INFO, MsgBatchStart)].

Definition is_running (t : string * task_state) : bool :=
  match snd t with Running => true | _ => false end.

Definition is_handled (t : string * task_state) : bool :=
  match snd t with Handled _ => true | _ => false end.

Fixpoint set_nth {A} (i : nat) (x : A) (l : list A) : list A :=
  match l, i with
  | [], _ => []
  | _ :: l', O => x :: l'
  | y :: l', S i' => y :: set_nth i' x l'
  end.

(** The body of the loop for one future:
    [try: future.result() except Exception as e: logging.error(...)].
    [future.result()] raises again what the task raised. *)
Definition try_result (symbol : string) (o : outcome)
  : outcome * list record :=
  match o with
  | Done => (Done, [])
  | Raised e => (Done, [(ERROR, MsgStockError symbol e)])
  end.

(** What can happen next: a free worker takes a queued task, a running
    task ends, the loop receives a finished future, the [with] block is
    left once every future was received. *)
Inductive action : Type :=
| Start (i : nat)
| Finish (i : nat)
| Handle (i : nat)
| Exit.

Definition exec (a : action) (s : state) : option state :=
  match main s with
  | Looping =>
      match a with
      | Start i =>
          match nth_error (tasks s) i with
          | Some (symbol, Queued) =>
              if length (filter is_running (tasks s)) <? max_workers then
                Some (mkState (set_nth i (symbol, Running) (tasks s))
                        Looping (main_log s))
              else None
          | _ => None
          end
      | Finish i =>
          match nth_error (tasks s) i with
          | Some (symbol, Running) =>
              let o := fst (process_single_stock symbol) in
              Some (mkState (set_nth i (symbol, Finished o) (tasks s))
                      Looping (main_log s))
          | _ => None
          end
      | Handle i =>
          match nth_error (tasks s) i with
          | Some (symbol, Finished o) =>
              let (r, l) := try_result symbol o in
              Some (mkState (set_nth i (symbol, Handled o) (tasks s))
                      (match r with
                       | Done => Looping
                       | Raised e => Propagated e
                       end)
                      (main_log s ++ l))
          | _ => None
          end
      | Exit =>
          if forallb is_handled (tasks s) then
            Some (mkState (tasks s) Returned (main_log s))
          else None
      end
  | _ => None
  end.

(** A schedule is a list of actions; it runs while each is possible. *)
Fixpoint run (sched : list action) (s : state) : option state :=
  match sched with
  | [] => Some s
  | a :: sched' =>
      match exec a s with
      | Some s' => run sched' s'
      | None => None
      end
  end.

(** [batch_process_a_stocks] over a list of symbols, under a schedule. *)
Definition batch_process (symbols : list string) (sched : list action)
  : option state :=
  run sched (init symbols).

(** What is left to do: three steps for a queued task, two for a
    running one, one for a finished one, and the exit. *)
Definition weight_of (t : task_state) : nat :=
  match t with
  | Queued => 3
  | Running => 2
  | Finished _ => 1
  | Handled _ => 0
  end.

Definition weight (s : state) : nat :=
  list_sum (map (fun t => weight_of (snd t)) (tasks s)) +
  match main s with Looping => 1 | _ => 0 end.

(** The outcome kept for a task is the one of its own pipeline. *)
Definition own_outcome (t : string * task_state) : Prop :=
  match snd t with
  | Finished o | Handled o => o = fst (process_single_stock (fst t))
  | _ => True
  end.

(** The error record of the loop for a task that raised. *)
Definition error_records (ts : list (string * task_state)) : list record :=
  flat_map (fun t =>
              match snd t with
              | Handled (Raised e) => [(ERROR, MsgStockError (fst t) e)]
              | _ => []
              end) ts.

(** What holds of every state that a schedule reaches. *)
Record invariant (symbols : list string) (s : state) : Prop := mkInv {
  inv_symbols : map fst (tasks s) = symbols;
  inv_main : main s = Looping \/ main s = Returned;
  inv_outcomes : Forall own_outcome (tasks s);
  inv_log :
    Permutation (main_log s)
      ((INFO, MsgBatchStart) :: error_records (tasks s));
  inv_workers : length (filter is_running (tasks s)) <= max_workers;
  inv_returned :
    main s = Returned -> forallb is_handled (tasks s) = true
}.
End Pipeline.

End Batch.
Import Batch.

(* ================================================================== *)
(** ** Sample inputs *)

Module Examples.

Definition ok_bar (d : Z) : bar :=
  mkBar d (num 10) (num 11) (num 12) (num 9) (num 500) [].

(** A halted day: no volume. *)
Definition halted_bar (d : Z) : bar :=
  mkBar d (num 10) (num 10) (num 10) (num 10) (num 0) [].

Definition with_halt : frame := [ok_bar 1; halted_bar 2; ok_bar 3].

(** Two rows with the same date, then an earlier one. *)
Definition bad_dates : frame := [ok_bar 5; ok_bar 5; ok_bar 2].

(** Valid bars, one a day, with the given closes. *)
Definition bars_of_closes (closes : list Z) : frame :=
  map (fun p => mkBar (Z.of_nat (fst p)) (num (snd p)) (num (snd p))
                  (num (snd p)) (num (snd p)) (num 1000) [])
      (combine (seq 0 (length closes)) closes).

(** The fifteen closes of the scenario of the spec. *)
Definition scenario_closes : list Z :=
  [10; 11; 12; 11; 10; 9; 10; 11; 12; 13; 14; 15; 16; 17; 18]%Z.

(** Providers for the batch scripts: one that always raises [e], one that
    has no row, one that raises twice and then answers. *)
Definition always_raises (e : string) : provider := fun _ _ => Raises e.

Definition no_rows : provider := fun _ _ => Returns [].

Definition third_time (df : frame) : provider :=
  fun _ k => match k with
             | 0 => Raises "timeout"
             | 1 => Raises "reset"
             | _ => Returns df
             end.

(** Fifteen rising closes and fifteen falling ones. *)
Definition rising : series :=
  map num [1; 2; 3; 4; 5; 6; 7; 8; 9; 10; 11; 12; 13; 14; 15]%Z.

Definition falling : series :=
  map num [15; 14; 13; 12; 11; 10; 9; 8; 7; 6; 5; 4; 3; 2; 1]%Z.

(** A provider for the interactive script that answers with one frame. *)
Definition answer_with (df : frame) : string -> Z -> Z -> response :=
  fun _ _ _ => Returns df.

(** Twenty-two closes that go up and down. *)
Definition long_closes : list Z :=
  [10; 11; 12; 11; 10; 9; 10; 11; 12; 13; 14; 15; 16; 17; 18; 17; 16; 17;
   18; 19; 20; 19]%Z.

Definition blank_row : erow :=
  mkERow (mkBar 0 None None None None None []) None None None None None None
    XNaN.

(** A batch run in which writing the file of the second symbol fails. *)
Definition csv_fails_for (symbol : string) : frame -> string -> outcome :=
  fun _ s => if String.eqb s symbol then Raised "disk full" else Done.

Definition quiet_draw : frame -> string -> outcome * list record :=
  fun _ _ => (Done, []).

Definition sample_schedule : list action :=
  [Start 0; Start 1; Start 2; Finish 1; Handle 1; Finish 0; Finish 2;
   Handle 2; Handle 0; Exit].

Definition sample_final : state :=
  mkState
    [("600519"%string, Handled Done);
     ("300750"%string, Handled (Raised "disk full"));
     ("601899"%string, Handled Done)]
    Returned
    [(INFO, MsgBatchStart); (ERROR, MsgStockError "300750" "disk full")].

End Examples.
Import Examples.

(* ================================================================== *)
(** ** Further definitions: codes, schedules, the static chart *)

Module Codes.

(** The string holds no ["."]. *)
Fixpoint no_dot (s : string) : bool :=
  match s with
  | EmptyString => true
  | String c rest => negb (Ascii.eqb c "."%char) && no_dot rest
  end.

(** The last record of a fetch: success, empty answer, or failure. *)
Definition terminal (code : string) (r : record) : Prop :=
  r = (INFO, MsgFetchOk code) \/
  r = (WARNING, MsgEmptyData code) \/
  exists e, r = (ERROR, MsgFetchFailed code e).

End Codes.
Import Codes.

Module Schedules.

(** The actions of a whole run over [n] tasks: each task is started,
    ends and is handled, and the block is left. *)
Definition all_actions (n : nat) : list action :=
  Exit :: flat_map (fun i => [Start i; Finish i; Handle i]) (seq 0 n).

(** How far a task has come. *)
Definition stage (t : task_state) : nat :=
  match t with
  | Queued => 0
  | Running => 1
  | Finished _ => 2
  | Handled _ => 3
  end.

Definition stage_at (s : state) (i : nat) : nat :=
  match nth_error (tasks s) i with
  | Some (_, t) => stage t
  | None => 0
  end.

(** The action was taken at some earlier point. *)
Definition spent (a : action) (s : state) : Prop :=
  match a with
  | Start i => 1 <= stage_at s i
  | Finish i => 2 <= stage_at s i
  | Handle i => 3 <= stage_at s i
  | Exit => main s = Returned
  end.

Section LoopLog.
Variable ak : provider.
Variable to_csv : frame -> string -> outcome.
Variable draw : frame -> string -> outcome * list record.

(** What the loop logs when an action is taken: the error record of the
    symbol of the future it receives, when the pipeline of that symbol
    raised; nothing for any other action. *)
Definition handle_record (symbols : list string) (a : action)
  : list record :=
  match a with
  | Handle i =>
      match nth_error symbols i with
      | Some symbol =>
          match fst (process_single_stock ak to_csv draw symbol) with
          | Raised e => [(ERROR, MsgStockError symbol e)]
          | Done => []
          end
      | None => []
      end
  | _ => []
  end.
End LoopLog.

End Schedules.
Import Schedules.

Module Recursions.

(** The seeded recursion as it is usually written, on numbers:
    [y_0 = x_0], [y_t = alpha * x_t + (1 - alpha) * y_(t-1)]. *)
Fixpoint ema_from (a : Qc) (prev : Qc) (xs : list Qc) : list Qc :=
  match xs with
  | [] => []
  | x :: rest =>
      let y := (a * x + (1 - a) * prev)%Qc in
      y :: ema_from a y rest
  end.

Definition ema (a : Qc) (xs : list Qc) : list Qc :=
  match xs with
  | [] => []
  | x0 :: rest => x0 :: ema_from a x0 rest
  end.

(** Differences of two columns of numbers, cell by cell. *)
Definition minus_cols (xs ys : list Qc) : list Qc :=
  zip_with Qcminus xs ys.

Definition macd_numbers (xs : list Qc) : list Qc :=
  minus_cols (ema (alpha 12) xs) (ema (alpha 26) xs).

Definition signal_numbers (xs : list Qc) : list Qc :=
  ema (alpha 9) (macd_numbers xs).

Definition hist_numbers (xs : list Qc) : list Qc :=
  minus_cols (macd_numbers xs) (signal_numbers xs).

(** What an RSI cell can hold: nothing, or a number from 0 to 100. *)
Definition rsi_in_range (x : xfloat) : Prop :=
  x = XNaN \/
  exists v, x = XFin v /\ (0 <= v)%Qc /\ (v <= hundred)%Qc.

End Recursions.
Import Recursions.

(* ================================================================== *)
(** ** The static-chart script *)

Module StaticChart.

(** A record of the static-chart script: one of the records it shares
    with the batch script, or one of the two that its chart function
    adds. *)
Inductive chart_record : Type :=
| Shared (r : record)
| ChartSaved (symbol : string)
| ChartFailed (e : string).

Section Static.
Variable ak : provider.
Variable to_csv : frame -> string -> outcome.
(** All that stands between [try:] and [except Exception] in the chart
    function (style, canvas, derived columns, drawing, writing the
    image), given by the environment: it ends or raises. *)
Variable render : frame -> string -> outcome.

(** [plot_stock_data] of the static-chart script. *)
Definition plot_stock_data_pro (df : option frame) (symbol : string)
  : outcome * list chart_record :=
  match df with
  | None => (Done, [Shared (WARNING, MsgNothingToPlot symbol)])
  | Some d =>
      if empty d then (Done, [Shared (WARNING, MsgNothingToPlot symbol)])
      else match render d symbol with
           | Done => (Done, [ChartSaved symbol])
           | Raised e => (Done, [ChartFailed e])
           end
  end.

(** [process_single_stock] of the static-chart script. *)
Definition process_single_stock_pro (symbol : string)
  : outcome * list chart_record :=
  let l0 := [Shared (INFO, MsgProcessing symbol)] in
  let (raw_data, tr) := fetch_a_stock_data ak symbol 3 in
  let (cleaned_data, l2) := clean_data raw_data in
  let (o3, l3) := save_to_csv to_csv cleaned_data symbol in
  match o3 with
  | Raised e =>
      (Raised e, l0 ++ map Shared (logged tr ++ l2 ++ l3))
  | Done =>
      let (o4, l4) := plot_stock_data_pro cleaned_data symbol in
      (o4, l0 ++ map Shared (logged tr ++ l2 ++ l3) ++ l4)
  end.
End Static.

(** The frame that the chart function of the static-chart script draws:
    the frame it was given (the cleaned one) after the assignments
    [df['MA5'] = ...] up to [df['RSI'] = ...].  The columns are assigned
    in place and no row is removed before the drawing.  (The script also
    assigns a [Return] column, which is not one of the seven.) *)
Definition plotted_frame (df : frame) : list erow := add_indicators df.

End StaticChart.
Import StaticChart.

(** Order-preserving sub-list. *)
Inductive Subseq {A : Type} : list A -> list A -> Prop :=
| Subseq_nil : Subseq [] []
| Subseq_keep : forall x l1 l2, Subseq l1 l2 -> Subseq (x :: l1) (x :: l2)
| Subseq_drop : forall x l1 l2, Subseq l1 l2 -> Subseq l1 (x :: l2).

(* ================================================================== *)
(** ** Facts about numbers *)

Lemma Qcltb_lt (x y : Qc) : Qcltb x y = true <-> (x < y)%Qc.
Proof.
  unfold Qcltb. rewrite Qclt_alt.
  destruct (x ?= y)%Qc; split; congruence.
Qed.

Lemma gt0_positive (c : cell) : gt0 c = true <-> positive c.
Proof.
  unfold positive. destruct c as [v|]; simpl.
  - rewrite Qcltb_lt. split.
    + intros H. exists v. auto.
    + intros (w & E & H). injection E as ->. exact H.
  - split; [discriminate|]. intros (w & E & _). discriminate.
Qed.

Lemma gt0_notna (c : cell) : gt0 c = true -> isna c = false.
Proof. destruct c; simpl; [reflexivity | discriminate]. Qed.

(* ================================================================== *)
(** ** Facts about the cleaner *)

Section SubseqFacts.
Context {A B : Type}.

Lemma Subseq_refl (l : list A) : Subseq l l.
Proof. induction l; constructor; assumption. Qed.

Lemma Subseq_filter (p : A -> bool) (l : list A) : Subseq (filter p l) l.
Proof.
  induction l as [|x l IH]; simpl.
  - constructor.
  - destruct (p x); constructor; exact IH.
Qed.

Lemma Subseq_map (f : A -> B) (l1 l2 : list A) :
  Subseq l1 l2 -> Subseq (map f l1) (map f l2).
Proof. induction 1; simpl; constructor; assumption. Qed.

Lemma Subseq_length (l1 l2 : list A) :
  Subseq l1 l2 -> length l1 <= length l2.
Proof. induction 1; simpl; lia. Qed.
End SubseqFacts.

Lemma filter_filter {A} (p q : A -> bool) (l : list A) :
  filter q (filter p l) = filter (fun x => p x && q x) l.
Proof.
  induction l as [|x l IH]; simpl; [reflexivity|].
  destruct (p x); simpl; [destruct (q x)|]; rewrite IH; reflexivity.
Qed.

Lemma filter_ext' {A} (p q : A -> bool) (l : list A) :
  (forall x, p x = q x) -> filter p l = filter q l.
Proof. intros E. apply filter_ext. exact E. Qed.

(** The three stages of [clean_data] amount to one filter: a row that
    passes the volume test is not all-missing. *)
Lemma clean_stages (df : frame) :
  fold_left (fun acc col => keep_gt0 col acc) price_columns
    (keep_gt0 Volume (dropna_all df)) = filter valid_barb df.
Proof.
  unfold price_columns, keep_gt0, dropna_all. simpl.
  rewrite !filter_filter. apply filter_ext'. intros r. cbv beta.
  unfold valid_barb.
  destruct (gt0 (Volume r)) eqn:EV.
  - rewrite (gt0_notna _ EV). rewrite !andb_false_r. simpl.
    destruct (gt0 (Open r)), (gt0 (High r)), (gt0 (Low r)), (gt0 (Close r));
      reflexivity.
  - simpl. apply andb_false_r.
Qed.

Lemma clean_data_filter (df : frame) :
  fst (clean_data (Some df)) =
    if empty (filter valid_barb df) then None
    else Some (filter valid_barb df).
Proof.
  unfold clean_data. destruct df as [|r df'] eqn:E; [reflexivity|].
  cbv zeta. rewrite <- E. rewrite clean_stages.
  assert (HE : empty df = false) by (rewrite E; reflexivity).
  rewrite HE.
  destruct (empty (filter valid_barb df)); reflexivity.
Qed.

Lemma cleaned_rows_filter (df : frame) :
  cleaned_rows (Some df) = filter valid_barb df.
Proof.
  unfold cleaned_rows. rewrite clean_data_filter.
  destruct (filter valid_barb df); reflexivity.
Qed.

Lemma valid_barb_valid (r : bar) : valid_barb r = true <-> valid_bar r.
Proof.
  unfold valid_barb, valid_bar.
  rewrite !andb_true_iff, !gt0_positive. tauto.
Qed.


(* ================================================================== *)
(** ** Claims about the cleaner *)


(** C1.  Every row of the frame that [clean_data] returns has a volume
    greater than zero and an open, high, low and close greater than
    zero. *)
Theorem C1_cleaned_rows_positive :
  forall (df : option frame) (out : frame),
    fst (clean_data df) = Some out ->
    Forall valid_bar out.
Proof.
  intros [df|] out H.
  - rewrite clean_data_filter in H.
    destruct (empty (filter valid_barb df)); [discriminate|].
    injection H as <-. apply Forall_forall. intros r Hr.
    apply filter_In in Hr. apply valid_barb_valid. apply Hr.
  - discriminate.
Qed.

Lemma C1_witness :
  fst (clean_data (Some with_halt)) = Some [ok_bar 1; ok_bar 3] /\
  Forall valid_bar [ok_bar 1; ok_bar 3].
Proof.
  assert (H : fst (clean_data (Some with_halt)) = Some [ok_bar 1; ok_bar 3])
    by reflexivity.
  split; [exact H | exact (C1_cleaned_rows_positive (Some with_halt) H)].
Defined.

(** C9.  The rows that [clean_data] returns are a sub-sequence of the
    rows it was given: each one is an input row with all its fields, in
    the input order; they are exactly the input rows that pass the
    tests. *)
Theorem C9_clean_only_removes_rows :
  forall (df out : frame),
    fst (clean_data (Some df)) = Some out ->
    Subseq out df /\ out = filter valid_barb df.
Proof.
  intros df out H. rewrite clean_data_filter in H.
  destruct (empty (filter valid_barb df)); [discriminate|].
  injection H as <-. split; [apply Subseq_filter | reflexivity].
Qed.

Lemma C9_witness :
  fst (clean_data (Some with_halt)) = Some [ok_bar 1; ok_bar 3] /\
  Subseq [ok_bar 1; ok_bar 3] with_halt /\
  [ok_bar 1; ok_bar 3] = filter valid_barb with_halt.
Proof.
  assert (H : fst (clean_data (Some with_halt)) = Some [ok_bar 1; ok_bar 3])
    by reflexivity.
  split; [exact H | exact (C9_clean_only_removes_rows with_halt H)].
Defined.

(** C5 as stated fails: a frame with a repeated date and a date out of
    order is neither refused nor answered with an error; [clean_data]
    returns it whole. *)
Lemma C5_counterexample :
  dates_increasing bad_dates = false /\
  clean_data (Some bad_dates) = (Some bad_dates, []) /\
  ~ (forall df : frame,
       dates_increasing df = false -> fst (clean_data (Some df)) = None).
Proof.
  split; [reflexivity|]. split; [reflexivity|].
  intros H. specialize (H bad_dates eq_refl). discriminate H.
Qed.

(** C5, amended.  [clean_data] does not look at the dates: whatever the
    dates are (repeated or out of order included) its result is that of
    the three row tests alone, it commutes with any change of the dates,
    and the dates of the rows it keeps are a sub-sequence of the dates it
    was given, so that it never reorders them. *)
Theorem C5_clean_ignores_dates :
  forall (df : frame),
    fst (clean_data (Some df)) =
      (if empty (filter valid_barb df) then None
       else Some (filter valid_barb df)) /\
    (forall f : Z -> Z,
       cleaned_rows (Some (map (set_date f) df)) =
       map (set_date f) (cleaned_rows (Some df))) /\
    Subseq (map Date (cleaned_rows (Some df))) (map Date df).
Proof.
  intros df. split; [apply clean_data_filter|]. split.
  - intros f. rewrite !cleaned_rows_filter.
    induction df as [|r df IH]; simpl; [reflexivity|].
    change (valid_barb (set_date f r)) with (valid_barb r).
    destruct (valid_barb r); simpl; rewrite IH; reflexivity.
  - rewrite cleaned_rows_filter. apply Subseq_map, Subseq_filter.
Qed.

(* ================================================================== *)
(** ** Facts about the rolling mean and the trim *)

Lemma rolling_mean_length (n : nat) (s : series) :
  length (rolling_mean n s) = length s.
Proof. unfold rolling_mean. rewrite length_map, length_seq. reflexivity. Qed.

Lemma rolling_mean_nth (n t : nat) (s : series) :
  t < length s ->
  nth t (rolling_mean n s) None =
    if t + 1 <? n then None
    else match sum_cells (window n t s) with
         | Some total => Some (total / Qc_of_nat n)%Qc
         | None => None
         end.
Proof.
  intros Ht. unfold rolling_mean.
  match goal with |- nth t (map ?g _) None = _ => set (f := g) end.
  rewrite (nth_indep (map f (seq 0 (length s))) None (f 0)).
  - rewrite map_nth. rewrite seq_nth by exact Ht. reflexivity.
  - rewrite length_map, length_seq. exact Ht.
Qed.

(** Before [n] cells are seen the rolling mean is undefined. *)
Lemma rolling_mean_warmup (n t : nat) (s : series) :
  t + 1 < n -> nth t (rolling_mean n s) None = None.
Proof.
  intros Ht. destruct (Nat.lt_ge_cases t (length s)) as [Hl|Hl].
  - rewrite rolling_mean_nth by exact Hl.
    apply Nat.ltb_lt in Ht. rewrite Ht. reflexivity.
  - apply nth_overflow. rewrite rolling_mean_length. exact Hl.
Qed.

Lemma filter_none {A} (p : A -> bool) (l : list A) :
  (forall x, In x l -> p x = false) -> filter p l = [].
Proof.
  induction l as [|x l IH]; intros H; simpl; [reflexivity|].
  rewrite (H x (or_introl eq_refl)). apply IH.
  intros y Hy. apply H. right. exact Hy.
Qed.

Lemma In_add_indicators (df : frame) (r : erow) :
  In r (add_indicators df) ->
  exists t, t < length df /\
    MA20 r = nth t (MA 20 (map Close df)) None.
Proof.
  unfold add_indicators. intros H. apply in_map_iff in H.
  destruct H as ([b t] & <- & Hin). exists t. split; [|reflexivity].
  apply in_combine_r in Hin. apply in_seq in Hin. lia.
Qed.

Lemma complete_derived (r : erow) : complete r = true -> derived_defined r.
Proof.
  unfold complete, derived_defined, notna.
  rewrite !andb_true_iff, !negb_true_iff. tauto.
Qed.

(* ================================================================== *)
(** ** Claims about the interactive script *)

(** After the derived columns are computed, [get_stock_data] drops
    every row that has an undefined cell, so that no row of the frame it
    returns has an undefined derived cell, whatever the provider
    answers. *)
Lemma returned_rows_defined :
  forall (ak : string -> Z -> Z -> response) (symbol : string)
         (start_date end_date : Z) (r : erow),
    In r (rows_of (fst (get_stock_data ak symbol start_date end_date))) ->
    derived_defined r.
Proof.
  intros ak symbol sd ed r. unfold get_stock_data.
  destruct (ak (split_dot_head symbol) sd ed) as [e|df]; simpl.
  - intros [].
  - destruct (empty df); simpl; [intros []|].
    unfold dropna. intros H. apply filter_In in H.
    apply complete_derived. apply H.
Qed.

(** C10.  In the interactive script a fetched frame of fewer than twenty
    bars leaves MA20 undefined on every row, the trim removes every row,
    and the caller gets an empty frame and draws the empty figure, as it
    does when the provider has no row at all. *)
Theorem C10_short_series_is_empty :
  forall (ak : string -> Z -> Z -> response) (symbol : string)
         (start_date end_date : Z) (df : frame) (indicators : list string),
    ak (split_dot_head symbol) start_date end_date = Returns df ->
    length df < 20 ->
    (forall r, In r (add_indicators df) -> MA20 r = None) /\
    rows_of (fst (get_stock_data ak symbol start_date end_date)) = [] /\
    df_empty (fst (get_stock_data ak symbol start_date end_date)) = true /\
    update_chart ak symbol start_date end_date indicators = EmptyFigure /\
    update_chart (answer_with []) symbol start_date end_date indicators =
      EmptyFigure.
Proof.
  intros ak symbol sd ed df inds Hak Hlen.
  assert (HMA : forall r, In r (add_indicators df) -> MA20 r = None).
  { intros r Hr. apply In_add_indicators in Hr.
    destruct Hr as (t & Ht & ->). apply rolling_mean_warmup. lia. }
  assert (Hrows : rows_of (fst (get_stock_data ak symbol sd ed)) = []).
  { unfold get_stock_data. rewrite Hak.
    destruct (empty df); simpl; [reflexivity|].
    unfold dropna. apply filter_none. intros r Hr.
    unfold complete. rewrite (HMA r Hr). simpl.
    rewrite !andb_false_r. reflexivity. }
  split; [exact HMA|]. split; [exact Hrows|].
  assert (He : df_empty (fst (get_stock_data ak symbol sd ed)) = true).
  { unfold df_empty. rewrite Hrows. reflexivity. }
  split; [exact He|]. split; [|reflexivity].
  unfold update_chart. rewrite He. reflexivity.
Qed.

(* ================================================================== *)
(** ** Facts about the fetcher *)

Section FetchFacts.
Variable ak : provider.
Variable symbol : string.
Let code := split_dot_head symbol.

Lemma raises_from_shift (a k : nat) :
  (forall j, a <= j < a + S k -> exists e, ak code j = Raises e) ->
  (exists e, ak code a = Raises e) /\
  (forall j, S a <= j < S a + k -> exists e, ak code j = Raises e).
Proof.
  intros H. split.
  - apply H. lia.
  - intros j Hj. apply H. lia.
Qed.

(** The attempt [a + k] is the first that does not raise. *)
Lemma attempts_first_answer (k : nat) :
  forall (m a : nat) (df : frame),
    k < m ->
    (forall j, a <= j < a + k -> exists e, ak code j = Raises e) ->
    ak code (a + k) = Returns df ->
    attempts ak symbol (a + m) (seq a m) =
      if empty df then
        (None, retry_events code a k ++
               [Call code; Logged (WARNING, MsgEmptyData code)])
      else
        (Some df, retry_events code a k ++
                  [Call code; Logged (INFO, MsgFetchOk code)]).
Proof.
  induction k as [|k IH]; intros m a df Hk Hr Hret.
  - destruct m as [|m]; [lia|]. simpl. fold code.
    rewrite Nat.add_0_r in Hret. rewrite Hret.
    destruct (empty df); reflexivity.
  - destruct m as [|m]; [lia|].
    apply raises_from_shift in Hr. destruct Hr as [[e He] Hr].
    simpl. fold code. rewrite He.
    assert (Ht : (a <? a + S m - 1) = true) by (apply Nat.ltb_lt; lia).
    rewrite Ht.
    replace (a + S m) with (S a + m) by lia.
    rewrite (IH m (S a) df); [| lia | exact Hr |].
    + unfold retry_events. simpl. destruct (empty df); reflexivity.
    + replace (S a + k) with (a + S k) by lia. exact Hret.
Qed.

(** Every attempt raises; the last one raises [e]. *)
Lemma attempts_all_raise (m : nat) :
  forall (a : nat) (e : string),
    (forall j, a <= j < a + S m -> exists e', ak code j = Raises e') ->
    ak code (a + m) = Raises e ->
    attempts ak symbol (a + S m) (seq a (S m)) =
      (None, retry_events code a m ++
             [Call code; Logged (ERROR, MsgFetchFailed code e)]).
Proof.
  induction m as [|m IH]; intros a e Hr Hlast.
  - simpl. fold code. rewrite Nat.add_0_r in Hlast. rewrite Hlast.
    assert (Ht : (a <? a + 1 - 1) = false) by (apply Nat.ltb_ge; lia).
    rewrite Ht. reflexivity.
  - apply raises_from_shift in Hr. destruct Hr as [[e' He'] Hr].
    change (seq a (S (S m))) with (a :: seq (S a) (S m)).
    cbn [attempts]. fold code. rewrite He'.
    assert (Ht : (a <? a + S (S m) - 1) = true) by (apply Nat.ltb_lt; lia).
    rewrite Ht.
    replace (a + S (S m)) with (S a + S m) by lia.
    rewrite (IH (S a) e); [reflexivity | exact Hr |].
    replace (S a + m) with (a + S m) by lia. exact Hlast.
Qed.

(** One call at most for each attempt. *)
Lemma attempts_calls (retries : nat) (todo : list nat) :
  length (filter is_call (snd (attempts ak symbol retries todo)))
    <= length todo.
Proof.
  induction todo as [|a todo IH]; simpl; [lia|]. fold code.
  destruct (ak code a) as [e|df].
  - destruct (a <? retries - 1).
    + destruct (attempts ak symbol retries todo) as [r tr].
      simpl in *. lia.
    + simpl. lia.
  - destruct (empty df); simpl; lia.
Qed.

(** A returned frame has rows. *)
Lemma attempts_some (retries : nat) (todo : list nat) (df : frame) :
  fst (attempts ak symbol retries todo) = Some df -> empty df = false.
Proof.
  induction todo as [|a todo IH]; simpl; [discriminate|]. fold code.
  destruct (ak code a) as [e|df'].
  - destruct (a <? retries - 1).
    + destruct (attempts ak symbol retries todo) as [r tr].
      simpl in *. exact IH.
    + discriminate.
  - destruct (empty df') eqn:E; simpl; [discriminate|].
    intros H. injection H as <-. exact E.
Qed.

Lemma retry_events_calls (a k : nat) :
  length (filter is_call (retry_events code a k)) = k.
Proof.
  unfold retry_events. revert a.
  induction k as [|k IH]; intros a; simpl; [reflexivity|].
  rewrite IH. reflexivity.
Qed.

Lemma retry_events_logged (a k : nat) :
  logged (retry_events code a k) =
    map (fun j => (WARNING, MsgRetry code (j + 1))) (seq a k).
Proof.
  unfold retry_events. revert a.
  induction k as [|k IH]; intros a; simpl; [reflexivity|].
  rewrite IH. reflexivity.
Qed.

Lemma logged_app (t1 t2 : list event) :
  logged (t1 ++ t2) = logged t1 ++ logged t2.
Proof.
  induction t1 as [|[c|r] t1 IH]; simpl; [reflexivity|exact IH|].
  rewrite IH. reflexivity.
Qed.

Lemma retry_warnings (a k : nat) :
  length (filter (is_level WARNING)
            (map (fun j => (WARNING, MsgRetry code (j + 1))) (seq a k))) = k
  /\
  length (filter is_retry
            (map (fun j => (WARNING, MsgRetry code (j + 1))) (seq a k))) = k.
Proof.
  revert a. induction k as [|k IH]; intros a; simpl; [split; reflexivity|].
  destruct (IH (S a)) as [H1 H2]. rewrite H1, H2. split; reflexivity.
Qed.
End FetchFacts.

Lemma raises_until_from (ak : provider) (code : string) (k : nat) :
  raises_until ak code k ->
  forall j, 0 <= j < 0 + k -> exists e, ak code j = Raises e.
Proof. intros H j Hj. apply H. lia. Qed.

Lemma fetch_first_answer (ak : provider) (symbol : string)
    (retries k : nat) (df : frame) :
  k < retries ->
  raises_until ak (split_dot_head symbol) k ->
  ak (split_dot_head symbol) k = Returns df ->
  fetch_a_stock_data ak symbol retries =
    if empty df then
      (None, retry_events (split_dot_head symbol) 0 k ++
             [Call (split_dot_head symbol);
              Logged (WARNING, MsgEmptyData (split_dot_head symbol))])
    else
      (Some df, retry_events (split_dot_head symbol) 0 k ++
                [Call (split_dot_head symbol);
                 Logged (INFO, MsgFetchOk (split_dot_head symbol))]).
Proof.
  intros Hk Hr Hret. unfold fetch_a_stock_data.
  exact (@attempts_first_answer ak symbol k retries 0 df Hk
           (raises_until_from Hr) Hret).
Qed.

Lemma fetch_all_raise (ak : provider) (symbol : string) (m : nat)
    (e : string) :
  raises_until ak (split_dot_head symbol) (S m) ->
  ak (split_dot_head symbol) m = Raises e ->
  fetch_a_stock_data ak symbol (S m) =
    (None, retry_events (split_dot_head symbol) 0 m ++
           [Call (split_dot_head symbol);
            Logged (ERROR, MsgFetchFailed (split_dot_head symbol) e)]).
Proof.
  intros Hr Hlast. unfold fetch_a_stock_data.
  exact (@attempts_all_raise ak symbol m 0 e (raises_until_from Hr) Hlast).
Qed.

(** Calls and records of a trace that ends with one more call and one
    record [r]. *)
Lemma trace_calls (symbol : string) (k : nat) (r : record) :
  length (filter is_call
            (retry_events (split_dot_head symbol) 0 k ++
             [Call (split_dot_head symbol); Logged r])) = k + 1.
Proof.
  rewrite filter_app, length_app, retry_events_calls. reflexivity.
Qed.

Lemma trace_logged (symbol : string) (k : nat) (r : record) :
  logged (retry_events (split_dot_head symbol) 0 k ++
          [Call (split_dot_head symbol); Logged r]) =
    map (fun j => (WARNING, MsgRetry (split_dot_head symbol) (j + 1)))
      (seq 0 k) ++ [r].
Proof.
  rewrite logged_app, retry_events_logged. reflexivity.
Qed.

(* ================================================================== *)
(** ** Claims about the fetcher *)

(** C3 as stated fails in one clause: after the last failed attempt the
    function returns [None], and [None] carries nothing.  Two providers
    that fail with different descriptions give the same returned value,
    so no description can be read from it; the description is in the
    error record of the log. *)
Lemma C3_counterexample :
  fetch_a_stock_data (always_raises "timeout") "600519" 3 =
    (None,
     [Call "600519"; Logged (WARNING, MsgRetry "600519" 1);
      Call "600519"; Logged (WARNING, MsgRetry "600519" 2);
      Call "600519"; Logged (ERROR, MsgFetchFailed "600519" "timeout")]) /\
  fst (fetch_a_stock_data (always_raises "timeout") "600519" 3) =
    fst (fetch_a_stock_data (always_raises "refused") "600519" 3) /\
  ~ (exists carried : option frame -> string,
       forall e : string,
         carried (fst (fetch_a_stock_data (always_raises e) "600519" 3)) = e).
Proof.
  split; [reflexivity|]. split; [reflexivity|].
  intros [carried H].
  pose proof (H "timeout"%string) as H1.
  pose proof (H "refused"%string) as H2.
  simpl in H1, H2. rewrite H1 in H2. discriminate H2.
Qed.

(** C3, amended.  For every symbol and every sequence of outcomes of the
    provider calls, [fetch_a_stock_data symbol retries]
    - makes at most [retries] calls, one per attempt, with nothing but
      log records between them;
    - when call [k < retries] is the first that does not raise and its
      table has rows, returns that table as it is, after [k + 1] calls
      and exactly [k] warning records, one per failed attempt;
    - when all the [retries >= 1] calls raise, logs an error record that
      carries the description of the last error and returns [None]; the
      description is in the log and not in the returned value, and
      nothing is raised to the caller;
    - in particular, with [retries = 3], a provider that raises twice
      and then answers gives the third call's table and exactly two
      warning records. *)
Theorem C3_fetch_retry :
  forall (ak : provider) (symbol : string),
    (forall retries, calls_made ak symbol retries <= retries) /\
    (forall retries k df,
        k < retries ->
        raises_until ak (split_dot_head symbol) k ->
        ak (split_dot_head symbol) k = Returns df ->
        empty df = false ->
        fst (fetch_a_stock_data ak symbol retries) = Some df /\
        calls_made ak symbol retries = k + 1 /\
        fetch_log ak symbol retries =
          map (fun j => (WARNING, MsgRetry (split_dot_head symbol) (j + 1)))
            (seq 0 k) ++ [(INFO, MsgFetchOk (split_dot_head symbol))] /\
        length (filter (is_level WARNING) (fetch_log ak symbol retries)) = k)
    /\
    (forall m e,
        raises_until ak (split_dot_head symbol) (S m) ->
        ak (split_dot_head symbol) m = Raises e ->
        fst (fetch_a_stock_data ak symbol (S m)) = None /\
        calls_made ak symbol (S m) = S m /\
        fetch_log ak symbol (S m) =
          map (fun j => (WARNING, MsgRetry (split_dot_head symbol) (j + 1)))
            (seq 0 m) ++
          [(ERROR, MsgFetchFailed (split_dot_head symbol) e)]) /\
    (forall e0 e1 df,
        ak (split_dot_head symbol) 0 = Raises e0 ->
        ak (split_dot_head symbol) 1 = Raises e1 ->
        ak (split_dot_head symbol) 2 = Returns df ->
        empty df = false ->
        fst (fetch_a_stock_data ak symbol 3) = Some df /\
        length (filter (is_level WARNING) (fetch_log ak symbol 3)) = 2 /\
        length (filter is_retry (fetch_log ak symbol 3)) = 2).
Proof.
  intros ak symbol.
  assert (Hfirst : forall retries k df,
             k < retries ->
             raises_until ak (split_dot_head symbol) k ->
             ak (split_dot_head symbol) k = Returns df ->
             empty df = false ->
             fst (fetch_a_stock_data ak symbol retries) = Some df /\
             calls_made ak symbol retries = k + 1 /\
             fetch_log ak symbol retries =
               map (fun j =>
                      (WARNING, MsgRetry (split_dot_head symbol) (j + 1)))
                 (seq 0 k) ++ [(INFO, MsgFetchOk (split_dot_head symbol))] /\
             length (filter (is_level WARNING)
                       (fetch_log ak symbol retries)) = k /\
             length (filter is_retry (fetch_log ak symbol retries)) = k).
  { intros retries k df Hk Hr Hret Hne.
    unfold calls_made, fetch_log.
    rewrite (@fetch_first_answer ak symbol _ _ _ Hk Hr Hret), Hne. simpl fst.
    simpl snd. rewrite trace_calls, trace_logged.
    repeat split; try reflexivity.
    - rewrite filter_app, length_app.
      match goal with |- ?x + _ = _ =>
        replace x with k
          by (symmetry; exact (proj1 (retry_warnings symbol 0 k)))
      end.
      simpl. lia.
    - rewrite filter_app, length_app.
      match goal with |- ?x + _ = _ =>
        replace x with k
          by (symmetry; exact (proj2 (retry_warnings symbol 0 k)))
      end.
      simpl. lia. }
  split; [|split; [|split]].
  - intros retries. unfold calls_made, fetch_a_stock_data.
    pose proof (attempts_calls ak symbol retries (seq 0 retries)) as H.
    rewrite length_seq in H. exact H.
  - intros retries k df Hk Hr Hret Hne.
    destruct (Hfirst retries k df Hk Hr Hret Hne) as (H1 & H2 & H3 & H4 & _).
    repeat split; assumption.
  - intros m e Hr Hlast. unfold calls_made, fetch_log.
    rewrite (@fetch_all_raise ak symbol _ _ Hr Hlast). simpl fst. simpl snd.
    rewrite trace_calls, trace_logged.
    repeat split; try reflexivity. lia.
  - intros e0 e1 df H0 H1 H2 Hne.
    assert (Hr : raises_until ak (split_dot_head symbol) 2).
    { intros j Hj. destruct j as [|[|j]]; [eauto | eauto | lia]. }
    destruct (Hfirst 3 2 df (Nat.lt_succ_diag_r 2) Hr H2 Hne)
      as (R1 & _ & _ & R4 & R5).
    repeat split; assumption.
Qed.

Lemma C3_witness :
  (fst (fetch_a_stock_data (third_time with_halt) "600519.SH" 3)
     = Some with_halt /\
   length (filter (is_level WARNING)
             (fetch_log (third_time with_halt) "600519.SH" 3)) = 2 /\
   length (filter is_retry
             (fetch_log (third_time with_halt) "600519.SH" 3)) = 2) /\
  (fst (fetch_a_stock_data (always_raises "timeout") "600519.SH" 3) = None /\
   calls_made (always_raises "timeout") "600519.SH" 3 = 3 /\
   fetch_log (always_raises "timeout") "600519.SH" 3 =
     [(WARNING, MsgRetry "600519" 1); (WARNING, MsgRetry "600519" 2);
      (ERROR, MsgFetchFailed "600519" "timeout")]).
Proof.
  split.
  - apply (proj2 (proj2 (proj2
             (C3_fetch_retry (third_time with_halt) "600519.SH")))
             "timeout"%string "reset"%string with_halt);
      reflexivity.
  - apply (proj1 (proj2 (proj2
             (C3_fetch_retry (always_raises "timeout") "600519.SH")))
             2 "timeout"%string).
    + intros j _. exists "timeout"%string. reflexivity.
    + reflexivity.
Defined.

(** C4 as stated fails: the returned value does not tell an empty
    answer from a failure after the last attempt; both are [None]. *)
Lemma C4_counterexample :
  fst (fetch_a_stock_data no_rows "600519" 3) = None /\
  fst (fetch_a_stock_data (always_raises "timeout") "600519" 3) = None /\
  ~ (fst (fetch_a_stock_data no_rows "600519" 3) <>
     fst (fetch_a_stock_data (always_raises "timeout") "600519" 3)).
Proof.
  split; [reflexivity|]. split; [reflexivity|].
  intros H. apply H. reflexivity.
Qed.

(** C4, amended.  When the first call that does not raise has no row,
    [fetch_a_stock_data] logs a warning and returns [None] at once: it
    makes no further call.  The returned value is two-way, [None] or a
    frame with rows; [None] is also what is returned after the last
    failed attempt, and the two cases differ only in the last record of
    the log, a warning about empty data against an error with the
    description. *)
Theorem C4_empty_answer :
  forall (ak : provider) (symbol : string),
    (forall retries k,
        k < retries ->
        raises_until ak (split_dot_head symbol) k ->
        ak (split_dot_head symbol) k = Returns [] ->
        fst (fetch_a_stock_data ak symbol retries) = None /\
        calls_made ak symbol retries = k + 1 /\
        fetch_log ak symbol retries =
          map (fun j => (WARNING, MsgRetry (split_dot_head symbol) (j + 1)))
            (seq 0 k) ++
          [(WARNING, MsgEmptyData (split_dot_head symbol))]) /\
    (forall retries,
        fst (fetch_a_stock_data ak symbol retries) = None \/
        exists df, fst (fetch_a_stock_data ak symbol retries) = Some df /\
                   empty df = false) /\
    (forall m e,
        raises_until ak (split_dot_head symbol) (S m) ->
        ak (split_dot_head symbol) m = Raises e ->
        fst (fetch_a_stock_data ak symbol (S m)) = None /\
        fetch_log ak symbol (S m) =
          map (fun j => (WARNING, MsgRetry (split_dot_head symbol) (j + 1)))
            (seq 0 m) ++
          [(ERROR, MsgFetchFailed (split_dot_head symbol) e)]).
Proof.
  intros ak symbol. split; [|split].
  - intros retries k Hk Hr Hret. unfold calls_made, fetch_log.
    rewrite (@fetch_first_answer ak symbol _ _ _ Hk Hr Hret). simpl.
    rewrite trace_calls, trace_logged. repeat split; reflexivity.
  - intros retries.
    destruct (fst (fetch_a_stock_data ak symbol retries)) as [df|] eqn:E.
    + right. exists df. split; [reflexivity|].
      exact (@attempts_some ak symbol retries (seq 0 retries) df E).
    + left. reflexivity.
  - intros m e Hr Hlast. unfold fetch_log.
    rewrite (@fetch_all_raise ak symbol _ _ Hr Hlast). simpl fst. simpl snd.
    rewrite trace_logged. split; reflexivity.
Qed.

Lemma C4_witness :
  fst (fetch_a_stock_data no_rows "600519.SH" 3) = None /\
  calls_made no_rows "600519.SH" 3 = 1 /\
  fetch_log no_rows "600519.SH" 3 = [(WARNING, MsgEmptyData "600519")].
Proof.
  apply (proj1 (C4_empty_answer no_rows "600519.SH") 3 0).
  - lia.
  - intros j Hj. lia.
  - reflexivity.
Defined.

(* ================================================================== *)
(** ** Facts about rationals and lists used by the indicators *)

Lemma Qc_this_plus (a b : Qc) : (this (a + b)%Qc == this a + this b)%Q.
Proof. unfold Qcplus, Q2Qc. cbn [this]. apply Qred_correct. Qed.

Lemma Qc_this_opp (a : Qc) : (this (- a)%Qc == - this a)%Q.
Proof. unfold Qcopp, Q2Qc. cbn [this]. apply Qred_correct. Qed.

Lemma Qc_this_minus (a b : Qc) : (this (a - b)%Qc == this a - this b)%Q.
Proof. unfold Qcminus. rewrite Qc_this_plus, Qc_this_opp. reflexivity. Qed.

(** Turns an order goal on [Qc] into one on [Q]. *)
Ltac qc_to_q :=
  unfold Qcle, Qclt in *;
  rewrite ?Qc_this_plus, ?Qc_this_minus, ?Qc_this_opp in *;
  change (this 0%Qc) with 0%Q in *.

Lemma Qcltb_false_ge (x y : Qc) : (y <= x)%Qc -> Qcltb x y = false.
Proof.
  intros H. destruct (Qcltb x y) eqn:E; [|reflexivity].
  apply Qcltb_lt in E. exfalso. revert H E. qc_to_q. intros. lra.
Qed.

Lemma Qc_eq_bool_false (x y : Qc) : x <> y -> Qc_eq_bool x y = false.
Proof.
  intros H. destruct (Qc_eq_bool x y) eqn:E; [|reflexivity].
  apply Qc_eq_bool_correct in E. contradiction.
Qed.

Lemma Qc_eq_bool_refl (x : Qc) : Qc_eq_bool x x = true.
Proof.
  unfold Qc_eq_bool. destruct (Qc_eq_dec x x); [reflexivity|contradiction].
Qed.

Lemma Qc_div14_pos (x : Qc) : (0 < x -> 0 < x / Qc_of_nat 14)%Qc.
Proof.
  intros H. unfold Qcdiv.
  assert (H14 : (0 < / Qc_of_nat 14)%Qc) by reflexivity.
  pose proof (Qcmult_lt_compat_r 0 x (/ Qc_of_nat 14) H14 H) as H1.
  rewrite Qcmult_0_l in H1. exact H1.
Qed.

Lemma Qc_lt_neq (x : Qc) : (0 < x)%Qc -> x <> 0%Qc.
Proof. intros H E. subst x. revert H. qc_to_q. intros. lra. Qed.

Lemma nth_map_lt {A B} (f : A -> B) (l : list A) (t : nat) (d : B) (d' : A) :
  t < length l -> nth t (map f l) d = f (nth t l d').
Proof.
  intros H. rewrite (nth_indep (map f l) d (f d')).
  - apply map_nth.
  - rewrite length_map. exact H.
Qed.

Section ListFacts.
Context {A B C : Type}.

Lemma length_zip_with (f : A -> B -> C) (a : list A) (b : list B) :
  length a = length b -> length (zip_with f a b) = length a.
Proof.
  intros H. unfold zip_with. rewrite length_map, length_combine. lia.
Qed.

Lemma nth_zip_with (f : A -> B -> C) (a : list A) (b : list B) (t : nat)
    (d : C) (da : A) (db : B) :
  length a = length b -> t < length a ->
  nth t (zip_with f a b) d = f (nth t a da) (nth t b db).
Proof.
  intros Hl Ht. unfold zip_with.
  rewrite (nth_map_lt (fun p => f (fst p) (snd p)) (combine a b) d (da, db)).
  - rewrite combine_nth by exact Hl. reflexivity.
  - rewrite length_combine. lia.
Qed.

Lemma zip_with_repeat (f : A -> B -> C) (x : A) (y : B) (n : nat) :
  zip_with f (repeat x n) (repeat y n) = repeat (f x y) n.
Proof.
  unfold zip_with. induction n as [|n IH]; simpl; [reflexivity|].
  rewrite IH. reflexivity.
Qed.

Lemma Forall_firstn_ (P : A -> Prop) (n : nat) (l : list A) :
  Forall P l -> Forall P (firstn n l).
Proof.
  intros H. revert n. induction H as [|x l Hx Hl IH]; intros [|n]; simpl;
    constructor; auto.
Qed.

Lemma Forall_skipn_ (P : A -> Prop) (n : nat) (l : list A) :
  Forall P l -> Forall P (skipn n l).
Proof.
  intros H. revert n. induction H as [|x l Hx Hl IH]; intros [|n]; simpl;
    auto.
Qed.
End ListFacts.

Lemma Forall_window (P : cell -> Prop) (n t : nat) (s : series) :
  Forall P s -> Forall P (window n t s).
Proof. intros H. apply Forall_firstn_, Forall_skipn_, H. Qed.

(** The cell at [t] is the last one of the window that ends at [t]. *)
Lemma window_has_last (n t : nat) (s : series) :
  1 <= n -> n <= t + 1 -> t < length s ->
  In (nth t s None) (window n t s).
Proof.
  intros Hn Hnt Ht. unfold window.
  assert (E : nth (n - 1) (firstn n (skipn (t + 1 - n) s)) None
              = nth t s None).
  { rewrite nth_firstn.
    assert (Hb : (n - 1 <? n) = true) by (apply Nat.ltb_lt; lia).
    rewrite Hb, nth_skipn. f_equal. lia. }
  rewrite <- E. apply nth_In.
  rewrite length_firstn, length_skipn. lia.
Qed.

(* ================================================================== *)
(** ** Facts about the exponential averages *)

Lemma ewm_step_const (a c : Qc) :
  ((1 * (1 - a) * c + a * c) / (1 * (1 - a) + a))%Qc = c.
Proof.
  replace (1 * (1 - a) + a)%Qc with 1%Qc by ring.
  replace (1 * (1 - a) * c + a * c)%Qc with c by ring.
  unfold Qcdiv. change (/ 1)%Qc with 1%Qc. apply Qcmult_1_r.
Qed.

(** The average of a constant is the constant. *)
Lemma ewm_from_const (a c : Qc) (n : nat) :
  ewm_from a (Some c) 1%Qc (repeat (Some c) n) = repeat (Some c) n.
Proof.
  induction n as [|n IH]; [reflexivity|].
  cbn [repeat ewm_from]. cbv zeta. rewrite ewm_step_const, IH. reflexivity.
Qed.

Lemma ewm_mean_const (span : nat) (c : Qc) (n : nat) :
  ewm_mean span (repeat (Some c) n) = repeat (Some c) n.
Proof.
  destruct n as [|n]; [reflexivity|].
  cbn [repeat ewm_mean]. rewrite ewm_from_const. reflexivity.
Qed.

Lemma csub_self (c : Qc) : csub (Some c) (Some c) = Some 0%Qc.
Proof. unfold csub, lift2. f_equal. ring. Qed.

Lemma MACD_const (c : Qc) (n : nat) :
  MACD (repeat (Some c) n) = repeat (Some 0%Qc) n.
Proof.
  unfold MACD. cbv zeta. rewrite !ewm_mean_const, zip_with_repeat, csub_self.
  reflexivity.
Qed.

Lemma Signal_const (c : Qc) (n : nat) :
  Signal (repeat (Some c) n) = repeat (Some 0%Qc) n.
Proof. unfold Signal. rewrite MACD_const. apply ewm_mean_const. Qed.

Lemma Hist_const (c : Qc) (n : nat) :
  Hist (repeat (Some c) n) = repeat (Some 0%Qc) n.
Proof.
  unfold Hist. rewrite MACD_const, Signal_const, zip_with_repeat, csub_self.
  reflexivity.
Qed.

Lemma within_zero (eps : Qc) : (0 < eps)%Qc -> within eps (Some 0%Qc).
Proof. intros H. simpl. split; revert H; qc_to_q; intros; lra. Qed.

(* ================================================================== *)
(** ** Claim about MACD *)

(** C6.  For a constant close [c] each seeded exponential average (span
    12 and span 26) is the constant itself, so MACD, Signal and Hist are
    zero at every bar; hence all three converge to zero: for every
    [eps > 0] there is a rank from which the three stay within [eps] of
    zero, whatever the length of the series. *)
Theorem C6_macd_of_constant_close :
  forall (c : Qc),
    (forall n, ewm_mean 12 (repeat (Some c) n) = repeat (Some c) n /\
               ewm_mean 26 (repeat (Some c) n) = repeat (Some c) n) /\
    (forall n t, t < n ->
       nth t (MACD (repeat (Some c) n)) None = Some 0%Qc /\
       nth t (Signal (repeat (Some c) n)) None = Some 0%Qc /\
       nth t (Hist (repeat (Some c) n)) None = Some 0%Qc) /\
    (forall eps : Qc, (0 < eps)%Qc ->
       exists N, forall n t, N <= t -> t < n ->
         within eps (nth t (MACD (repeat (Some c) n)) None) /\
         within eps (nth t (Signal (repeat (Some c) n)) None) /\
         within eps (nth t (Hist (repeat (Some c) n)) None)).
Proof.
  intros c.
  assert (Hz : forall n t, t < n ->
             nth t (MACD (repeat (Some c) n)) None = Some 0%Qc /\
             nth t (Signal (repeat (Some c) n)) None = Some 0%Qc /\
             nth t (Hist (repeat (Some c) n)) None = Some 0%Qc).
  { intros n t Ht. rewrite MACD_const, Signal_const, Hist_const.
    rewrite !nth_repeat_lt by exact Ht. auto. }
  split; [|split].
  - intros n. split; apply ewm_mean_const.
  - exact Hz.
  - intros eps Heps. exists 0. intros n t _ Ht.
    destruct (Hz n t Ht) as (-> & -> & ->).
    auto using within_zero.
Qed.

Lemma C6_witness :
  exists N, forall n t, N <= t -> t < n ->
    within (Qc_of_Z 1) (nth t (MACD (repeat (num 10) n)) None) /\
    within (Qc_of_Z 1) (nth t (Signal (repeat (num 10) n)) None) /\
    within (Qc_of_Z 1) (nth t (Hist (repeat (num 10) n)) None).
Proof.
  apply (proj2 (proj2 (C6_macd_of_constant_close (Qc_of_Z 10)))
           (Qc_of_Z 1)).
  reflexivity.
Defined.

(* ================================================================== *)
(** ** Facts about the RSI *)

Lemma length_diff_from (prev : cell) (s : series) :
  length (diff_from prev s) = length s.
Proof.
  revert prev. induction s as [|x s IH]; intros prev; simpl; [reflexivity|].
  rewrite IH. reflexivity.
Qed.

Lemma length_diff (s : series) : length (diff s) = length s.
Proof. destruct s; simpl; [reflexivity|]. rewrite length_diff_from. auto. Qed.

Lemma diff_from_nth (s : series) :
  forall (prev : cell) (i : nat),
    i < length s ->
    nth i (diff_from prev s) None =
      csub (nth i s None) (nth i (prev :: s) None).
Proof.
  induction s as [|x s IH]; intros prev i Hi; simpl in Hi; [lia|].
  destruct i as [|i]; [reflexivity|].
  cbn [diff_from nth]. rewrite IH by lia. reflexivity.
Qed.

(** [delta[i+1] = close[i+1] - close[i]] *)
Lemma diff_nth_S (s : series) (i : nat) :
  S i < length s ->
  nth (S i) (diff s) None = csub (nth (S i) s None) (nth i s None).
Proof.
  destruct s as [|x s]; simpl; intros Hi; [lia|].
  rewrite diff_from_nth by lia. reflexivity.
Qed.

(** [delta[0]] is undefined. *)
Lemma diff_nth_0 (s : series) : nth 0 (diff s) None = None.
Proof. destruct s; reflexivity. Qed.

Lemma length_gain (close : series) : length (gain close) = length close.
Proof.
  unfold gain, where_. cbv zeta. rewrite length_map. apply length_diff.
Qed.

Lemma length_loss (close : series) : length (loss close) = length close.
Proof.
  unfold loss, where_. cbv zeta. rewrite !length_map. apply length_diff.
Qed.

Lemma gain_nth (close : series) (t : nat) :
  t < length close ->
  nth t (gain close) None =
    if gt0 (nth t (diff close) None) then nth t (diff close) None
    else Some 0%Qc.
Proof.
  intros Ht. unfold gain, where_. cbv zeta.
  rewrite (@nth_map_lt cell cell _ (diff close) t None None);
    [reflexivity|].
  rewrite length_diff. exact Ht.
Qed.

Lemma loss_nth (close : series) (t : nat) :
  t < length close ->
  nth t (loss close) None =
    cneg (if lt0 (nth t (diff close) None) then nth t (diff close) None
          else Some 0%Qc).
Proof.
  intros Ht. unfold loss, where_. cbv zeta. rewrite map_map.
  rewrite (@nth_map_lt cell cell _ (diff close) t None None);
    [reflexivity|].
  rewrite length_diff. exact Ht.
Qed.

(** Gain and loss of one difference. *)
Lemma gain_loss_of_positive (d : cell) :
  positive d ->
  positive (if gt0 d then d else Some 0%Qc) /\
  cneg (if lt0 d then d else Some 0%Qc) = Some 0%Qc.
Proof.
  intros (v & -> & Hv). split.
  - simpl. rewrite (proj2 (Qcltb_lt 0 v) Hv). exists v. auto.
  - simpl. rewrite Qcltb_false_ge; [reflexivity|].
    revert Hv. qc_to_q. intros. lra.
Qed.

Lemma gain_loss_of_negative (d : cell) :
  negative d ->
  (if gt0 d then d else Some 0%Qc) = Some 0%Qc /\
  positive (cneg (if lt0 d then d else Some 0%Qc)).
Proof.
  intros (v & -> & Hv). split.
  - simpl. rewrite Qcltb_false_ge; [reflexivity|].
    revert Hv. qc_to_q. intros. lra.
  - simpl. rewrite (proj2 (Qcltb_lt v 0) Hv). exists (- v)%Qc.
    split; [reflexivity|]. revert Hv. qc_to_q. intros. lra.
Qed.

Lemma diff_positive (close : series) (i : nat) :
  strictly_increasing close -> S i < length close ->
  positive (nth (S i) (diff close) None).
Proof.
  intros Hinc Hi. rewrite diff_nth_S by exact Hi.
  specialize (Hinc i Hi). unfold cell_lt in Hinc.
  destruct (nth i close None) as [x|]; [|contradiction].
  destruct (nth (S i) close None) as [y|]; [|contradiction].
  exists (y - x)%Qc. split; [reflexivity|].
  revert Hinc. qc_to_q. intros. lra.
Qed.

Lemma diff_negative (close : series) (i : nat) :
  strictly_decreasing close -> S i < length close ->
  negative (nth (S i) (diff close) None).
Proof.
  intros Hdec Hi. rewrite diff_nth_S by exact Hi.
  specialize (Hdec i Hi). unfold cell_lt in Hdec.
  destruct (nth (S i) close None) as [y|]; [|contradiction].
  destruct (nth i close None) as [x|]; [|contradiction].
  exists (y - x)%Qc. split; [reflexivity|].
  revert Hdec. qc_to_q. intros. lra.
Qed.

Lemma positive_nonneg (c : cell) : positive c -> nonneg c.
Proof.
  intros (v & -> & Hv). exists v. split; [reflexivity|].
  apply Qclt_le_weak. exact Hv.
Qed.

Lemma zero_nonneg : nonneg (Some 0%Qc).
Proof. exists 0%Qc. split; [reflexivity|]. apply Qcle_refl. Qed.

(** Rising closes: every gain is defined and not negative, it is
    positive from the second bar on, and every loss is zero. *)
Lemma gain_loss_increasing (close : series) :
  strictly_increasing close ->
  Forall nonneg (gain close) /\
  Forall (fun c => c = Some 0%Qc) (loss close) /\
  (forall i, S i < length close -> positive (nth (S i) (gain close) None)).
Proof.
  intros Hinc.
  assert (Hpos : forall i, S i < length close ->
             positive (nth (S i) (gain close) None) /\
             nth (S i) (loss close) None = Some 0%Qc).
  { intros i Hi. rewrite gain_nth, loss_nth by exact Hi.
    apply gain_loss_of_positive, diff_positive; assumption. }
  split; [|split].
  - apply Forall_nth. intros i d Hi. rewrite length_gain in Hi.
    rewrite (nth_indep _ d None) by (rewrite length_gain; exact Hi).
    destruct i as [|i].
    + rewrite gain_nth, diff_nth_0 by exact Hi. apply zero_nonneg.
    + apply positive_nonneg, Hpos, Hi.
  - apply Forall_nth. intros i d Hi. rewrite length_loss in Hi.
    rewrite (nth_indep _ d None) by (rewrite length_loss; exact Hi).
    destruct i as [|i].
    + rewrite loss_nth, diff_nth_0 by exact Hi. reflexivity.
    + apply Hpos, Hi.
  - intros i Hi. apply Hpos, Hi.
Qed.

(** Falling closes: the mirror image. *)
Lemma gain_loss_decreasing (close : series) :
  strictly_decreasing close ->
  Forall (fun c => c = Some 0%Qc) (gain close) /\
  Forall nonneg (loss close) /\
  (forall i, S i < length close -> positive (nth (S i) (loss close) None)).
Proof.
  intros Hdec.
  assert (Hneg : forall i, S i < length close ->
             nth (S i) (gain close) None = Some 0%Qc /\
             positive (nth (S i) (loss close) None)).
  { intros i Hi. rewrite gain_nth, loss_nth by exact Hi.
    apply gain_loss_of_negative, diff_negative; assumption. }
  split; [|split].
  - apply Forall_nth. intros i d Hi. rewrite length_gain in Hi.
    rewrite (nth_indep _ d None) by (rewrite length_gain; exact Hi).
    destruct i as [|i].
    + rewrite gain_nth, diff_nth_0 by exact Hi. reflexivity.
    + apply Hneg, Hi.
  - apply Forall_nth. intros i d Hi. rewrite length_loss in Hi.
    rewrite (nth_indep _ d None) by (rewrite length_loss; exact Hi).
    destruct i as [|i].
    + rewrite loss_nth, diff_nth_0 by exact Hi. apply zero_nonneg.
    + apply positive_nonneg, Hneg, Hi.
  - intros i Hi. apply Hneg, Hi.
Qed.

Lemma sum_cells_zero (w : series) :
  Forall (fun c => c = Some 0%Qc) w -> sum_cells w = Some 0%Qc.
Proof.
  induction 1 as [|c w Hc Hw IH]; simpl; [reflexivity|].
  rewrite Hc, IH. reflexivity.
Qed.

Lemma sum_cells_nonneg (w : series) :
  Forall nonneg w -> nonneg (sum_cells w).
Proof.
  induction 1 as [|c w Hc Hw IH]; simpl; [apply zero_nonneg|].
  destruct Hc as (v & -> & Hv). destruct IH as (u & -> & Hu).
  exists (v + u)%Qc. split; [reflexivity|].
  revert Hv Hu. qc_to_q. intros. lra.
Qed.

Lemma sum_cells_positive (w : series) :
  Forall nonneg w -> (exists c, In c w /\ positive c) ->
  positive (sum_cells w).
Proof.
  induction 1 as [|c w Hc Hw IH]; intros (p & Hin & Hp);
    [destruct Hin|].
  simpl. destruct (sum_cells_nonneg Hw) as (u & Eu & Hu).
  destruct Hin as [<-|Hin].
  - destruct Hp as (v & -> & Hv). rewrite Eu.
    exists (v + u)%Qc. split; [reflexivity|].
    revert Hv Hu. qc_to_q. intros. lra.
  - destruct Hc as (v & -> & Hv).
    destruct (IH (ex_intro _ p (conj Hin Hp))) as (u' & Eu' & Hu').
    rewrite Eu'. exists (v + u')%Qc. split; [reflexivity|].
    revert Hv Hu'. qc_to_q. intros. lra.
Qed.

(** The 14-bar mean of a column of zeros is zero. *)
Lemma rolling14_zero (s : series) (t : nat) :
  Forall (fun c => c = Some 0%Qc) s -> 13 <= t -> t < length s ->
  nth t (rolling_mean 14 s) None = Some 0%Qc.
Proof.
  intros Hs H13 Ht. rewrite rolling_mean_nth by exact Ht.
  assert (Hb : (t + 1 <? 14) = false) by (apply Nat.ltb_ge; lia).
  rewrite Hb, (sum_cells_zero (Forall_window 14 t Hs)).
  f_equal. unfold Qcdiv. apply Qcmult_0_l.
Qed.

(** The 14-bar mean is positive when no cell is negative and the last
    one is positive. *)
Lemma rolling14_positive (s : series) (t : nat) :
  Forall nonneg s -> positive (nth t s None) -> 13 <= t -> t < length s ->
  positive (nth t (rolling_mean 14 s) None).
Proof.
  intros Hs Hlast H13 Ht. rewrite rolling_mean_nth by exact Ht.
  assert (Hb : (t + 1 <? 14) = false) by (apply Nat.ltb_ge; lia).
  rewrite Hb.
  destruct (@sum_cells_positive (window 14 t s) (Forall_window 14 t Hs))
    as (total & -> & Htot).
  - exists (nth t s None). split; [|exact Hlast].
    apply window_has_last; lia.
  - exists (total / Qc_of_nat 14)%Qc. split; [reflexivity|].
    apply Qc_div14_pos, Htot.
Qed.

Lemma length_avg_gain (close : series) :
  length (avg_gain close) = length close.
Proof. unfold avg_gain. rewrite rolling_mean_length. apply length_gain. Qed.

Lemma length_avg_loss (close : series) :
  length (avg_loss close) = length close.
Proof. unfold avg_loss. rewrite rolling_mean_length. apply length_loss. Qed.

Lemma rs_nth (close : series) (t : nat) :
  t < length close ->
  nth t (rs close) XNaN =
    cdiv (nth t (avg_gain close) None) (nth t (avg_loss close) None).
Proof.
  intros Ht. unfold rs. apply nth_zip_with.
  - rewrite length_avg_gain, length_avg_loss. reflexivity.
  - rewrite length_avg_gain. exact Ht.
Qed.

Lemma RSI_nth (close : series) (t : nat) :
  nth t (RSI close) XNaN = rsi_of_rs (nth t (rs close) XNaN).
Proof.
  unfold RSI. change XNaN with (rsi_of_rs XNaN) at 1. apply map_nth.
Qed.

Lemma length_rs (close : series) : length (rs close) = length close.
Proof.
  unfold rs. rewrite length_zip_with.
  - apply length_avg_gain.
  - rewrite length_avg_gain, length_avg_loss. reflexivity.
Qed.

(** The zero-loss policy: an infinite ratio, of either sign, gives 100. *)
Lemma rsi_of_rs_inf :
  rsi_of_rs XPInf = XFin hundred /\ rsi_of_rs XNInf = XFin hundred.
Proof.
  unfold rsi_of_rs. simpl.
  split; f_equal; try (apply Qc_is_canon; reflexivity).
Qed.

Lemma rsi_of_rs_zero : rsi_of_rs (XFin 0%Qc) = XFin 0%Qc.
Proof.
  unfold rsi_of_rs. simpl. f_equal; try (apply Qc_is_canon; reflexivity).
Qed.

Lemma cdiv_pos_zero (g : cell) :
  positive g -> cdiv g (Some 0%Qc) = XPInf.
Proof.
  intros (v & -> & Hv). simpl.
  rewrite (proj2 (Qcltb_lt 0 v) Hv). reflexivity.
Qed.

Lemma cdiv_zero_pos (l : cell) :
  positive l -> cdiv (Some 0%Qc) l = XFin 0%Qc.
Proof.
  intros (v & -> & Hv). simpl.
  rewrite (Qc_eq_bool_false (Qc_lt_neq Hv)). f_equal.
  unfold Qcdiv. apply Qcmult_0_l.
Qed.

(* ================================================================== *)
(** ** Claim about the RSI *)

(** C7.  When the closes rise strictly, at every bar where the 14-bar RSI
    is defined (from the fourteenth bar on) the mean loss is zero, the
    ratio of mean gain to mean loss is infinite and the RSI is 100;
    when the closes fall strictly the RSI is 0 at each of these bars.
    Before the fourteenth bar the RSI is undefined. *)
Theorem C7_rsi_of_monotone_close :
  forall (close : series),
    (strictly_increasing close ->
     forall t, 13 <= t -> t < length close ->
       nth t (avg_loss close) None = Some 0%Qc /\
       nth t (rs close) XNaN = XPInf /\
       nth t (RSI close) XNaN = XFin hundred) /\
    (strictly_decreasing close ->
     forall t, 13 <= t -> t < length close ->
       nth t (avg_gain close) None = Some 0%Qc /\
       nth t (rs close) XNaN = XFin 0%Qc /\
       nth t (RSI close) XNaN = XFin 0%Qc) /\
    (forall t, t < 13 -> nth t (RSI close) XNaN = XNaN).
Proof.
  intros close. split; [|split].
  - intros Hinc t H13 Ht.
    destruct (gain_loss_increasing Hinc) as (Hg & Hl & Hp).
    assert (Hloss : nth t (avg_loss close) None = Some 0%Qc).
    { unfold avg_loss. apply rolling14_zero; [exact Hl | exact H13 |].
      rewrite length_loss. exact Ht. }
    assert (Hgain : positive (nth t (avg_gain close) None)).
    { unfold avg_gain. apply rolling14_positive; [exact Hg | | exact H13 |].
      - destruct t as [|t']; [lia|]. apply Hp. exact Ht.
      - rewrite length_gain. exact Ht. }
    assert (Hrs : nth t (rs close) XNaN = XPInf).
    { rewrite rs_nth by exact Ht. rewrite Hloss.
      apply cdiv_pos_zero, Hgain. }
    split; [exact Hloss|]. split; [exact Hrs|].
    rewrite RSI_nth, Hrs. apply rsi_of_rs_inf.
  - intros Hdec t H13 Ht.
    destruct (gain_loss_decreasing Hdec) as (Hg & Hl & Hp).
    assert (Hgain : nth t (avg_gain close) None = Some 0%Qc).
    { unfold avg_gain. apply rolling14_zero; [exact Hg | exact H13 |].
      rewrite length_gain. exact Ht. }
    assert (Hloss : positive (nth t (avg_loss close) None)).
    { unfold avg_loss. apply rolling14_positive; [exact Hl | | exact H13 |].
      - destruct t as [|t']; [lia|]. apply Hp. exact Ht.
      - rewrite length_loss. exact Ht. }
    assert (Hrs : nth t (rs close) XNaN = XFin 0%Qc).
    { rewrite rs_nth by exact Ht. rewrite Hgain.
      apply cdiv_zero_pos, Hloss. }
    split; [exact Hgain|]. split; [exact Hrs|].
    rewrite RSI_nth, Hrs. apply rsi_of_rs_zero.
  - intros t Ht. destruct (Nat.lt_ge_cases t (length close)) as [Hl|Hl].
    + rewrite RSI_nth, rs_nth by exact Hl.
      unfold avg_gain. rewrite rolling_mean_warmup by lia. reflexivity.
    + apply nth_overflow. unfold RSI. rewrite length_map, length_rs.
      exact Hl.
Qed.

Lemma rising_increasing : strictly_increasing rising.
Proof.
  intros i Hi.
  do 14 (destruct i as [|i]; [reflexivity|]).
  simpl in Hi. lia.
Defined.

Lemma falling_decreasing : strictly_decreasing falling.
Proof.
  intros i Hi.
  do 14 (destruct i as [|i]; [reflexivity|]).
  simpl in Hi. lia.
Defined.

Lemma C7_witness :
  nth 14 (RSI rising) XNaN = XFin hundred /\
  nth 14 (RSI falling) XNaN = XFin 0%Qc.
Proof.
  split.
  - apply (proj1 (C7_rsi_of_monotone_close rising) rising_increasing 14).
    + lia.
    + simpl. lia.
  - apply (proj1 (proj2 (C7_rsi_of_monotone_close falling))
             falling_decreasing 14).
    + lia.
    + simpl. lia.
Defined.

(* ================================================================== *)
(** ** Facts about the batch run *)

Lemma set_nth_split {A} (l : list A) :
  forall (i : nat) (x y : A),
    nth_error l i = Some x ->
    exists l1 l2, l = l1 ++ x :: l2 /\ set_nth i y l = l1 ++ y :: l2.
Proof.
  induction l as [|z l IH]; intros i x y H.
  - destruct i; discriminate.
  - destruct i as [|i]; simpl in H.
    + injection H as ->. exists [], l. split; reflexivity.
    + destruct (IH i x y H) as (l1 & l2 & E1 & E2).
      exists (z :: l1), l2. simpl. rewrite <- E1, E2. split; reflexivity.
Qed.

Lemma handled_not_running (l : list (string * task_state)) :
  forallb is_handled l = true -> filter is_running l = [].
Proof.
  induction l as [|[sym st] l IH]; simpl; [reflexivity|].
  intros H. apply andb_true_iff in H. destruct H as [H1 H2].
  destruct st; try discriminate. simpl. apply IH, H2.
Qed.

(** Some task can take its next step, or every task was handled. *)
Lemma next_task (l : list (string * task_state)) :
  (exists i sym o, nth_error l i = Some (sym, Finished o)) \/
  (exists i sym, nth_error l i = Some (sym, Running)) \/
  (filter is_running l = [] /\
   exists i sym, nth_error l i = Some (sym, Queued)) \/
  forallb is_handled l = true.
Proof.
  induction l as [|[sym st] l IH]; [right; right; right; reflexivity|].
  destruct st as [| |o|o].
  - destruct IH as [(i & s' & o & H)|[(i & s' & H)|[(Hr & _)|Hh]]].
    + left. exists (S i), s', o. exact H.
    + right. left. exists (S i), s'. exact H.
    + right. right. left. split; [exact Hr|]. exists 0, sym. reflexivity.
    + right. right. left. split; [simpl; apply handled_not_running, Hh|].
      exists 0, sym. reflexivity.
  - right. left. exists 0, sym. reflexivity.
  - left. exists 0, sym, o. reflexivity.
  - destruct IH as [(i & s' & o' & H)|[(i & s' & H)|[(Hr & i & s' & H)|Hh]]].
    + left. exists (S i), s', o'. exact H.
    + right. left. exists (S i), s'. exact H.
    + right. right. left. split; [exact Hr|]. exists (S i), s'. exact H.
    + right. right. right. simpl. exact Hh.
Qed.

Section BatchFacts.
Variable ak : provider.
Variable to_csv : frame -> string -> outcome.
Variable draw : frame -> string -> outcome * list record.

Abbreviation pipeline := (process_single_stock ak to_csv draw).
Abbreviation Inv := (invariant ak to_csv draw).
Abbreviation step := (exec ak to_csv draw).

Lemma error_records_app (l1 l2 : list (string * task_state)) :
  error_records (l1 ++ l2) = error_records l1 ++ error_records l2.
Proof. unfold error_records. apply flat_map_app. Qed.

Lemma weight_tasks_app (l1 l2 : list (string * task_state)) :
  list_sum (map (fun t => weight_of (snd t)) (l1 ++ l2)) =
  list_sum (map (fun t => weight_of (snd t)) l1) +
  list_sum (map (fun t => weight_of (snd t)) l2).
Proof. rewrite map_app. apply list_sum_app. Qed.

Lemma init_invariant (symbols : list string) :
  Inv symbols (init symbols) /\
  weight (init symbols) = 3 * length symbols + 1.
Proof.
  split.
  - constructor; simpl.
    + rewrite map_map. simpl. apply map_id.
    + left. reflexivity.
    + apply Forall_forall. intros t Ht. apply in_map_iff in Ht.
      destruct Ht as (sym & <- & _). exact I.
    + replace (error_records (map (fun symbol => (symbol, Queued)) symbols))
        with (@nil record); [apply Permutation_refl|].
      induction symbols as [|x l IH]; simpl; [reflexivity|exact IH].
    + replace (filter is_running
                 (map (fun symbol => (symbol, Queued)) symbols))
        with (@nil (string * task_state)); [simpl; lia|].
      induction symbols as [|x l IH]; simpl; [reflexivity|exact IH].
    + discriminate.
  - unfold weight. simpl.
    assert (H : list_sum (map (fun t => weight_of (snd t))
                  (map (fun symbol => (symbol, Queued)) symbols))
                = 3 * length symbols).
    { induction symbols as [|x l IH]; simpl; [reflexivity|].
      simpl in IH. rewrite IH. lia. }
    rewrite H. reflexivity.
Qed.

(** One step keeps the invariant and uses up one unit of weight. *)
Lemma exec_invariant (symbols : list string) (a : action) (s s' : state) :
  Inv symbols s -> step a s = Some s' ->
  Inv symbols s' /\ weight s = S (weight s').
Proof.
  intros [Hsym Hmain Hout Hlog Hwork Hret] H.
  unfold exec in H. destruct (main s) eqn:Em; try discriminate.
  destruct a as [i|i|i|].
  - (* a worker takes a queued task *)
    destruct (nth_error (tasks s) i) as [[sym st]|] eqn:En; [|discriminate].
    destruct st; try discriminate.
    destruct (length (filter is_running (tasks s)) <? max_workers) eqn:Ew;
      [|discriminate].
    injection H as <-. apply Nat.ltb_lt in Ew.
    destruct (set_nth_split (tasks s) i (sym, Running) En)
      as (l1 & l2 & E1 & E2).
    unfold weight. simpl. rewrite E2, Em.
    rewrite E1 in Hsym, Hout, Hlog, Ew.
    rewrite E1. split.
    + constructor; simpl.
      * rewrite map_app in *. exact Hsym.
      * left. reflexivity.
      * apply Forall_app in Hout. destruct Hout as [H1 H2].
        apply Forall_app. split; [exact H1|].
        inversion H2; subst. constructor; [exact I|assumption].
      * rewrite error_records_app in *. exact Hlog.
      * rewrite filter_app, length_app in *. simpl in *. lia.
      * discriminate.
    + rewrite !weight_tasks_app. simpl. lia.
  - (* a running task ends *)
    destruct (nth_error (tasks s) i) as [[sym st]|] eqn:En; [|discriminate].
    destruct st; try discriminate.
    injection H as <-.
    destruct (set_nth_split (tasks s) i
                (sym, Finished (fst (pipeline sym))) En)
      as (l1 & l2 & E1 & E2).
    unfold weight. simpl. rewrite E2, Em.
    rewrite E1 in Hsym, Hout, Hlog, Hwork.
    rewrite E1. split.
    + constructor; simpl.
      * rewrite map_app in *. exact Hsym.
      * left. reflexivity.
      * apply Forall_app in Hout. destruct Hout as [H1 H2].
        apply Forall_app. split; [exact H1|].
        inversion H2; subst. constructor; [reflexivity|assumption].
      * rewrite error_records_app in *. exact Hlog.
      * rewrite filter_app, length_app in *. simpl in *. lia.
      * discriminate.
    + rewrite !weight_tasks_app. simpl. lia.
  - (* the loop receives a finished future *)
    destruct (nth_error (tasks s) i) as [[sym st]|] eqn:En; [|discriminate].
    destruct st as [| |o|o]; try discriminate.
    destruct (set_nth_split (tasks s) i (sym, Handled o) En)
      as (l1 & l2 & E1 & E2).
    rewrite E1 in Hsym, Hout, Hlog, Hwork.
    assert (Hout' : Forall (own_outcome ak to_csv draw)
                      (l1 ++ (sym, Handled o) :: l2)).
    { apply Forall_app in Hout. destruct Hout as [H1 H2].
      apply Forall_app. split; [exact H1|].
      inversion H2; subst. constructor; assumption. }
    destruct o as [|e]; simpl in H; injection H as <-;
      unfold weight; simpl; rewrite E2, E1, Em; split.
    + constructor; simpl.
      * rewrite map_app in *. exact Hsym.
      * left. reflexivity.
      * exact Hout'.
      * rewrite app_nil_r. rewrite error_records_app in *. exact Hlog.
      * rewrite filter_app, length_app in *. simpl in *. lia.
      * discriminate.
    + rewrite !weight_tasks_app. simpl. lia.
    + constructor; simpl.
      * rewrite map_app in *. exact Hsym.
      * left. reflexivity.
      * exact Hout'.
      * rewrite error_records_app in *. simpl in *.
        apply Permutation_trans
          with ((ERROR, MsgStockError sym e) :: main_log s).
        { apply Permutation_sym, Permutation_cons_append. }
        apply Permutation_trans
          with ((ERROR, MsgStockError sym e)
                  :: (INFO, MsgBatchStart)
                  :: error_records l1 ++ error_records l2).
        { apply perm_skip. exact Hlog. }
        apply Permutation_trans
          with ((INFO, MsgBatchStart)
                  :: (ERROR, MsgStockError sym e)
                  :: error_records l1 ++ error_records l2).
        { apply perm_swap. }
        apply perm_skip. apply Permutation_middle.
      * rewrite filter_app, length_app in *. simpl in *. lia.
      * discriminate.
    + rewrite !weight_tasks_app. simpl. lia.
  - (* the with block is left *)
    destruct (forallb is_handled (tasks s)) eqn:Eh; [|discriminate].
    injection H as <-. unfold weight. simpl. rewrite Em. split.
    + constructor; simpl; try assumption.
      * right. reflexivity.
      * intros _. exact Eh.
    + lia.
Qed.

Lemma run_invariant (symbols : list string) (sched : list action) :
  forall (s s' : state),
    Inv symbols s -> run ak to_csv draw sched s = Some s' ->
    Inv symbols s' /\ weight s = length sched + weight s'.
Proof.
  induction sched as [|a sched IH]; intros s s' HI H; simpl in H.
  - injection H as <-. split; [exact HI|reflexivity].
  - destruct (step a s) as [s1|] eqn:E; [|discriminate].
    destruct (@exec_invariant symbols a s s1 HI E) as [HI1 Hw1].
    destruct (IH s1 s' HI1 H) as [HI' Hw'].
    split; [exact HI'|]. simpl. lia.
Qed.

(** While the loop runs something can happen: no state is stuck. *)
Lemma exec_progress (symbols : list string) (s : state) :
  Inv symbols s -> main s = Looping -> exists a s', step a s = Some s'.
Proof.
  intros HI Em.
  destruct (next_task (tasks s))
    as [(i & sym & o & H)|[(i & sym & H)|[(Hr & i & sym & H)|Hh]]].
  - exists (Handle i). unfold exec. rewrite Em, H.
    destruct o; simpl; eexists; reflexivity.
  - exists (Finish i). unfold exec. rewrite Em, H. eexists; reflexivity.
  - exists (Start i). unfold exec. rewrite Em, H, Hr. simpl.
    eexists; reflexivity.
  - exists Exit. unfold exec. rewrite Em, Hh. eexists; reflexivity.
Qed.

Lemma handled_all (l : list (string * task_state)) :
  forallb is_handled l = true ->
  Forall (own_outcome ak to_csv draw) l ->
  Forall (fun t => snd t = Handled (fst (pipeline (fst t)))) l.
Proof.
  intros Hh Ho. induction Ho as [|[sym st] l Hx Hl IH]; [constructor|].
  simpl in Hh. apply andb_true_iff in Hh. destruct Hh as [H1 H2].
  constructor; [|apply IH, H2].
  destruct st; try discriminate. simpl in *. unfold own_outcome in Hx.
  simpl in Hx. rewrite Hx. reflexivity.
Qed.

End BatchFacts.

Section BatchCompletion.
Variable ak : provider.
Variable to_csv : frame -> string -> outcome.
Variable draw : frame -> string -> outcome * list record.

Lemma run_app (sched rest : list action) :
  forall (s s1 : state),
    run ak to_csv draw sched s = Some s1 ->
    run ak to_csv draw (sched ++ rest) s = run ak to_csv draw rest s1.
Proof.
  induction sched as [|a sched IH]; intros s s1 H; simpl in *.
  - injection H as <-. reflexivity.
  - destruct (exec ak to_csv draw a s) as [s2|]; [|discriminate].
    apply IH, H.
Qed.

(** From every state that satisfies the invariant the run can be
    brought to its return. *)
Lemma run_completes (symbols : list string) (w : nat) :
  forall (s : state),
    invariant ak to_csv draw symbols s -> weight s <= w ->
    exists rest s',
      run ak to_csv draw rest s = Some s' /\ main s' = Returned.
Proof.
  induction w as [|w IH]; intros s HI Hw.
  - destruct (inv_main HI) as [Em|Em].
    + unfold weight in Hw. rewrite Em in Hw. lia.
    + exists [], s. split; [reflexivity|exact Em].
  - destruct (inv_main HI) as [Em|Em].
    + destruct (exec_progress HI Em) as (a & s1 & E).
      destruct (@exec_invariant ak to_csv draw symbols a s s1 HI E)
        as [HI1 Hw1].
      destruct (IH s1 HI1) as (rest & s' & Hrun & Hret); [lia|].
      exists (a :: rest), s'. simpl. rewrite E. split; assumption.
    + exists [], s. split; [reflexivity|exact Em].
Qed.
End BatchCompletion.

(* ================================================================== *)
(** ** Claim about the batch run *)

(** C8.  Whatever the symbols, the outcomes of their pipelines and the
    order in which the pool runs and completes the tasks, in every state
    that the run reaches: no exception has left the loop; the outcome
    kept for each task is the one of its own pipeline, so that a failure
    of one symbol changes nothing for the others; the log of the loop
    holds one error record for each handled task that raised and no
    other; while the loop runs some step is possible, the run needs
    [3 * n + 1] steps in all and can always be brought to its return;
    and when the run has returned, every task was run to its end and
    handled. *)
Theorem C8_batch_isolation :
  forall (ak : provider) (to_csv : frame -> string -> outcome)
         (draw : frame -> string -> outcome * list record)
         (symbols : list string) (sched : list action) (s : state),
    batch_process ak to_csv draw symbols sched = Some s ->
    (forall e, main s <> Propagated e) /\
    map fst (tasks s) = symbols /\
    Forall (own_outcome ak to_csv draw) (tasks s) /\
    Permutation (main_log s)
      ((INFO, MsgBatchStart) :: error_records (tasks s)) /\
    length sched + weight s = 3 * length symbols + 1 /\
    (main s = Looping -> exists a s', exec ak to_csv draw a s = Some s') /\
    (exists rest s',
       batch_process ak to_csv draw symbols (sched ++ rest) = Some s' /\
       main s' = Returned) /\
    (main s = Returned ->
     Forall (fun t =>
               snd t =
               Handled (fst (process_single_stock ak to_csv draw (fst t))))
       (tasks s)).
Proof.
  intros ak to_csv draw symbols sched s H. unfold batch_process in *.
  destruct (init_invariant ak to_csv draw symbols) as [HI0 Hw0].
  destruct (@run_invariant ak to_csv draw symbols sched _ _ HI0 H)
    as [HI Hw].
  split; [|split; [|split; [|split; [|split; [|split; [|split]]]]]].
  - intros e E. destruct (inv_main HI) as [Em|Em]; congruence.
  - exact (inv_symbols HI).
  - exact (inv_outcomes HI).
  - exact (inv_log HI).
  - lia.
  - intros Em. exact (exec_progress HI Em).
  - destruct (@run_completes ak to_csv draw symbols (weight s) s HI
                (le_n _)) as (rest & s' & Hrun & Hret).
    exists rest, s'. split; [|exact Hret].
    rewrite (run_app ak to_csv draw sched rest _ H). exact Hrun.
  - intros Em. apply handled_all; [exact (inv_returned HI Em)|].
    exact (inv_outcomes HI).
Qed.

Lemma C8_witness :
  batch_process (third_time with_halt) (csv_fails_for "300750") quiet_draw
    a_stock_symbols sample_schedule = Some sample_final /\
  (forall e, main sample_final <> Propagated e) /\
  Permutation (main_log sample_final)
    ((INFO, MsgBatchStart) :: error_records (tasks sample_final)).
Proof.
  assert (H : batch_process (third_time with_halt) (csv_fails_for "300750")
                quiet_draw a_stock_symbols sample_schedule
              = Some sample_final) by reflexivity.
  split; [exact H|].
  pose proof (C8_batch_isolation (third_time with_halt)
                (csv_fails_for "300750") quiet_draw a_stock_symbols
                sample_schedule H) as (H1 & _ & _ & H4 & _).
  split; [exact H1 | exact H4].
Defined.

(* ================================================================== *)
(** ** Instances of the claims about the interactive script *)

Lemma C10_witness :
  rows_of (fst (get_stock_data
                  (answer_with (bars_of_closes scenario_closes))
                  "600519" 0 0)) = [] /\
  update_chart (answer_with (bars_of_closes scenario_closes))
    "600519" 0 0 ["MACD"%string] = EmptyFigure.
Proof.
  assert (Hlen : length (bars_of_closes scenario_closes) < 20)
    by (vm_compute; lia).
  pose proof (@C10_short_series_is_empty
                (answer_with (bars_of_closes scenario_closes))
                "600519" 0%Z 0%Z (bars_of_closes scenario_closes)
                ["MACD"%string] eq_refl Hlen) as (_ & H2 & _ & H4 & _).
  split; [exact H2 | exact H4].
Defined.

(** The scenario of the spec: fifteen closes, MA5 of the last bar is 16
    and its RSI is above 50. *)
Lemma scenario_values :
  nth 14 (MA 5 (map num scenario_closes)) None = num 16 /\
  exists v, nth 14 (RSI (map num scenario_closes)) XNaN = XFin v /\
            (Qc_of_Z 50 < v)%Qc.
Proof.
  split.
  - vm_compute. f_equal; try (apply Qc_is_canon; reflexivity).
  - exists (Q2Qc (550 # 7)). split.
    + vm_compute. f_equal; try (apply Qc_is_canon; reflexivity).
    + reflexivity.
Qed.

(* ================================================================== *)
(** ** Further properties of the fetcher *)

Lemma split_dot_head_no_dot (symbol : string) :
  no_dot (split_dot_head symbol) = true.
Proof.
  induction symbol as [|c rest IH]; simpl; [reflexivity|].
  destruct (Ascii.eqb c "."%char) eqn:E; simpl; [reflexivity|].
  rewrite E, IH. reflexivity.
Qed.

Lemma split_dot_head_fixed (code : string) :
  no_dot code = true -> split_dot_head code = code.
Proof.
  induction code as [|c rest IH]; simpl; [reflexivity|].
  destruct (Ascii.eqb c "."%char); simpl; [discriminate|].
  intros H. rewrite IH by exact H. reflexivity.
Qed.

Lemma split_dot_head_suffix (code suffix : string) :
  no_dot code = true ->
  split_dot_head (code ++ String "."%char suffix) = code.
Proof.
  induction code as [|c rest IH]; simpl; [reflexivity|].
  destruct (Ascii.eqb c "."%char); simpl; [discriminate|].
  intros H. rewrite IH by exact H. reflexivity.
Qed.

Lemma attempts_normalised (ak : provider) (symbol : string) (retries : nat)
    (todo : list nat) :
  attempts ak (split_dot_head symbol) retries todo =
  attempts ak symbol retries todo.
Proof.
  induction todo as [|a todo IH]; simpl; [reflexivity|].
  rewrite (@split_dot_head_fixed _ (split_dot_head_no_dot symbol)).
  rewrite IH. reflexivity.
Qed.

(** X1.  Only the part of the symbol before the first dot is used: the
    code sent to the provider holds no dot, a symbol with an exchange
    suffix is fetched exactly as its bare code (same calls, same log,
    same result), and a code without a dot is sent as it is. *)
Theorem X1_fetch_ignores_suffix :
  forall (ak : provider) (code suffix : string) (retries : nat),
    no_dot code = true ->
    (forall symbol, no_dot (split_dot_head symbol) = true) /\
    split_dot_head (code ++ String "."%char suffix) = code /\
    split_dot_head code = code /\
    fetch_a_stock_data ak (code ++ String "."%char suffix) retries =
      fetch_a_stock_data ak code retries.
Proof.
  intros ak code suffix retries H.
  split; [exact split_dot_head_no_dot|].
  split; [apply split_dot_head_suffix, H|].
  split; [apply split_dot_head_fixed, H|].
  unfold fetch_a_stock_data.
  rewrite <- (attempts_normalised ak (code ++ String "."%char suffix)).
  rewrite (@split_dot_head_suffix code suffix H). reflexivity.
Qed.

Lemma X1_witness :
  (forall symbol, no_dot (split_dot_head symbol) = true) /\
  split_dot_head "600519.SH" = "600519"%string /\
  split_dot_head "600519" = "600519"%string /\
  fetch_a_stock_data (third_time with_halt) "600519.SH" 3 =
    fetch_a_stock_data (third_time with_halt) "600519" 3.
Proof.
  exact (X1_fetch_ignores_suffix (third_time with_halt) "600519" "SH" 3
           eq_refl).
Defined.

(** Up to any rank, either every call raises or some call is the first
    that answers. *)
Lemma first_answer (ak : provider) (code : string) (n : nat) :
  raises_until ak code n \/
  exists k df, k < n /\ raises_until ak code k /\ ak code k = Returns df.
Proof.
  induction n as [|n IH].
  - left. intros j Hj. lia.
  - destruct IH as [Hr|(k & df & Hk & Hr & Hret)].
    + destruct (ak code n) as [e|df] eqn:E.
      * left. intros j Hj.
        destruct (Nat.eq_dec j n) as [->|Hne]; [eauto|]. apply Hr. lia.
      * right. exists n, df. split; [lia|]. split; assumption.
    + right. exists k, df. split; [lia|]. split; assumption.
Qed.

(** The shape of the events of a fetch with at least one attempt. *)
Lemma fetch_trace_shape :
  forall (ak : provider) (symbol : string) (m : nat),
    exists k final,
      k <= m /\
      raises_until ak (split_dot_head symbol) k /\
      snd (fetch_a_stock_data ak symbol (S m)) =
        retry_events (split_dot_head symbol) 0 k ++
        [Call (split_dot_head symbol); Logged final] /\
      calls_made ak symbol (S m) = k + 1 /\
      ((exists df,
          final = (INFO, MsgFetchOk (split_dot_head symbol)) /\
          ak (split_dot_head symbol) k = Returns df /\
          empty df = false /\
          fst (fetch_a_stock_data ak symbol (S m)) = Some df) \/
       (final = (WARNING, MsgEmptyData (split_dot_head symbol)) /\
        ak (split_dot_head symbol) k = Returns [] /\
        fst (fetch_a_stock_data ak symbol (S m)) = None) \/
       (exists e,
          final = (ERROR, MsgFetchFailed (split_dot_head symbol) e) /\
          k = m /\
          ak (split_dot_head symbol) m = Raises e /\
          fst (fetch_a_stock_data ak symbol (S m)) = None)).
Proof.
  intros ak symbol m.
  destruct (first_answer ak (split_dot_head symbol) (S m))
    as [Hr|(k & df & Hk & Hr & Hret)].
  - destruct (Hr m (Nat.lt_succ_diag_r m)) as [e He].
    exists m, (ERROR, MsgFetchFailed (split_dot_head symbol) e).
    unfold calls_made.
    rewrite (@fetch_all_raise ak symbol m e Hr He). simpl fst. simpl snd.
    rewrite trace_calls.
    split; [lia|]. split.
    { intros j Hj. apply Hr. lia. }
    split; [reflexivity|]. split; [reflexivity|].
    right. right. exists e. auto.
  - unfold calls_made.
    rewrite (@fetch_first_answer ak symbol (S m) k df Hk Hr Hret).
    destruct (empty df) eqn:E.
    + exists k, (WARNING, MsgEmptyData (split_dot_head symbol)).
      simpl fst. simpl snd. rewrite trace_calls.
      split; [lia|]. split; [exact Hr|].
      split; [reflexivity|]. split; [reflexivity|].
      right. left. destruct df; [auto|discriminate].
    + exists k, (INFO, MsgFetchOk (split_dot_head symbol)).
      simpl fst. simpl snd. rewrite trace_calls.
      split; [lia|]. split; [exact Hr|].
      split; [reflexivity|]. split; [reflexivity|].
      left. exists df. auto.
Qed.

(** X2.  With at least one attempt allowed, whatever the provider does,
    the events of a fetch are [k] failed attempts, each with its call
    and its numbered retry warning, then one more call and exactly one
    closing record: success (and the table of call [k] is returned),
    empty answer ([None]), or failure of the last allowed call
    ([None]).  So [k + 1 <= retries] calls are made, and a frame is
    returned exactly when the closing record is the success record. *)
Theorem X2_fetch_trace_shape :
  forall (ak : provider) (symbol : string) (m : nat),
    exists k final,
      k <= m /\
      raises_until ak (split_dot_head symbol) k /\
      snd (fetch_a_stock_data ak symbol (S m)) =
        retry_events (split_dot_head symbol) 0 k ++
        [Call (split_dot_head symbol); Logged final] /\
      calls_made ak symbol (S m) = k + 1 /\
      ((exists df,
          final = (INFO, MsgFetchOk (split_dot_head symbol)) /\
          ak (split_dot_head symbol) k = Returns df /\
          empty df = false /\
          fst (fetch_a_stock_data ak symbol (S m)) = Some df) \/
       (final = (WARNING, MsgEmptyData (split_dot_head symbol)) /\
        ak (split_dot_head symbol) k = Returns [] /\
        fst (fetch_a_stock_data ak symbol (S m)) = None) \/
       (exists e,
          final = (ERROR, MsgFetchFailed (split_dot_head symbol) e) /\
          k = m /\
          ak (split_dot_head symbol) m = Raises e /\
          fst (fetch_a_stock_data ak symbol (S m)) = None)).
Proof. exact fetch_trace_shape. Qed.

(** X3.  Allowing more attempts never changes a fetch that ended with
    an answer: when a fetch with [r] attempts returns a frame, a fetch
    with any [r' >= r] attempts makes the same calls, logs the same
    records and returns the same frame. *)
Theorem X3_more_retries_keep_result :
  forall (ak : provider) (symbol : string) (r r' : nat) (df : frame),
    fst (fetch_a_stock_data ak symbol r) = Some df ->
    r <= r' ->
    fetch_a_stock_data ak symbol r' = fetch_a_stock_data ak symbol r.
Proof.
  intros ak symbol r r' df H Hle.
  destruct r as [|m]; [discriminate|].
  destruct (fetch_trace_shape ak symbol m)
    as (k & final & Hk & Hr & _ & _ & Hcase).
  destruct Hcase as [(df' & _ & Hret & Hne & _)
                    |[(_ & _ & Hnone)|(e & _ & _ & _ & Hnone)]];
    try (rewrite Hnone in H; discriminate).
  rewrite (@fetch_first_answer ak symbol (S m) k df'); try assumption;
    [|lia].
  rewrite (@fetch_first_answer ak symbol r' k df'); try assumption;
    [reflexivity|lia].
Qed.

Lemma X3_witness :
  fetch_a_stock_data (third_time with_halt) "600519" 7 =
  fetch_a_stock_data (third_time with_halt) "600519" 3.
Proof.
  apply (@X3_more_retries_keep_result (third_time with_halt) "600519" 3 7
           with_halt).
  - reflexivity.
  - lia.
Defined.

(* ================================================================== *)
(** ** Further properties of the cleaner *)

Lemma clean_data_cases (df : frame) :
  clean_data (Some df) =
    if empty df then (None, [])
    else if empty (filter valid_barb df)
         then (None, [(WARNING, MsgCleanedEmpty)])
         else (Some (filter valid_barb df), []).
Proof.
  unfold clean_data. destruct (empty df); [reflexivity|].
  cbv zeta. rewrite clean_stages. reflexivity.
Qed.

Lemma empty_false {A} (l : list A) : empty l = false <-> l <> [].
Proof. destruct l; simpl; split; congruence. Qed.

Lemma filter_nil_iff {A} (p : A -> bool) (l : list A) :
  filter p l = [] <-> forall x, In x l -> p x = false.
Proof.
  split.
  - induction l as [|x l IH]; simpl; intros H y Hy; [destruct Hy|].
    destruct (p x) eqn:E; [discriminate|].
    destruct Hy as [<-|Hy]; [exact E|apply IH; assumption].
  - apply filter_none.
Qed.

Lemma filter_idem {A} (p : A -> bool) (l : list A) :
  filter p (filter p l) = filter p l.
Proof.
  rewrite filter_filter. apply filter_ext. intros x.
  destruct (p x); reflexivity.
Qed.

(** X4.  [clean_data] returns [None] or a frame with at least one row,
    never an empty frame, and logs nothing with a frame.  It logs its
    one warning exactly when it was given rows and none of them passes
    the tests; for [None] and for a frame without rows it is silent. *)
Theorem X4_clean_result_and_warning :
  forall (df : option frame),
    (forall out, fst (clean_data df) = Some out ->
                 out <> [] /\ snd (clean_data df) = []) /\
    (snd (clean_data df) = [(WARNING, MsgCleanedEmpty)] <->
     exists rows, df = Some rows /\ rows <> [] /\
                  forall r, In r rows -> valid_barb r = false) /\
    (snd (clean_data df) = [] \/
     snd (clean_data df) = [(WARNING, MsgCleanedEmpty)]).
Proof.
  intros [df|]; [|simpl; repeat split; try discriminate; auto;
                  intros (rows & E & _); discriminate].
  rewrite clean_data_cases.
  destruct (empty df) eqn:E1; [|destruct (empty (filter valid_barb df)) eqn:E2];
    simpl.
  - split; [discriminate|]. split; [|auto].
    split; [discriminate|].
    intros (rows & E & Hne & _). injection E as <-.
    apply empty_false in Hne. congruence.
  - split; [discriminate|]. split; [|auto].
    split; [|reflexivity]. intros _. exists df.
    split; [reflexivity|]. split; [apply empty_false, E1|].
    apply filter_nil_iff. destruct (filter valid_barb df); [auto|discriminate].
  - split.
    + intros out H. injection H as <-. split; [apply empty_false, E2|auto].
    + split; [|auto]. split; [discriminate|].
      intros (rows & E & _ & Hall). injection E as <-.
      apply filter_nil_iff in Hall. rewrite Hall in E2. discriminate.
Qed.

Lemma X4_witness :
  (with_halt <> [] /\ snd (clean_data (Some with_halt)) = []) /\
  snd (clean_data (Some [halted_bar 2])) = [(WARNING, MsgCleanedEmpty)].
Proof.
  split.
  - assert (H : fst (clean_data (Some with_halt)) =
                Some [ok_bar 1; ok_bar 3]) by reflexivity.
    destruct (proj1 (X4_clean_result_and_warning (Some with_halt)) _ H)
      as [_ H2].
    split; [discriminate | exact H2].
  - apply (proj1 (proj2 (X4_clean_result_and_warning
                           (Some [halted_bar 2])))).
    exists [halted_bar 2]. split; [reflexivity|]. split; [discriminate|].
    intros r [<-|[]]. reflexivity.
Defined.

(** X5.  Cleaning is idempotent: cleaning what [clean_data] returned
    gives it back unchanged, without any log record. *)
Theorem X5_clean_idempotent :
  forall (df : option frame),
    clean_data (fst (clean_data df)) = (fst (clean_data df), []).
Proof.
  intros [df|]; [|reflexivity].
  rewrite clean_data_cases.
  destruct (empty df); [reflexivity|].
  destruct (empty (filter valid_barb df)) eqn:E; [reflexivity|].
  simpl fst. rewrite clean_data_cases, E, filter_idem, E. reflexivity.
Qed.

(** X6.  Cleaning works row by row: the rows kept from two frames put
    end to end are the rows kept from the first followed by the rows
    kept from the second, and a row that fails a test (a halted day with
    no volume, say) leaves no trace: the result is that of the frame
    without it, its neighbours becoming consecutive. *)
Theorem X6_clean_row_by_row :
  forall (a b : frame),
    cleaned_rows (Some (a ++ b)) =
      cleaned_rows (Some a) ++ cleaned_rows (Some b) /\
    (forall r, valid_barb r = false ->
       cleaned_rows (Some (a ++ r :: b)) = cleaned_rows (Some (a ++ b)) /\
       map Close (cleaned_rows (Some (a ++ r :: b))) =
         map Close (cleaned_rows (Some a)) ++
         map Close (cleaned_rows (Some b))).
Proof.
  intros a b. rewrite !cleaned_rows_filter. split.
  - apply filter_app.
  - intros r Hr. rewrite !cleaned_rows_filter, !filter_app. simpl.
    rewrite Hr, map_app. split; reflexivity.
Qed.

Lemma X6_witness :
  cleaned_rows (Some ([ok_bar 1] ++ halted_bar 2 :: [ok_bar 3])) =
    cleaned_rows (Some ([ok_bar 1] ++ [ok_bar 3])) /\
  map Close (cleaned_rows (Some ([ok_bar 1] ++ halted_bar 2 :: [ok_bar 3])))
    = map Close (cleaned_rows (Some [ok_bar 1])) ++
      map Close (cleaned_rows (Some [ok_bar 3])).
Proof.
  apply (proj2 (X6_clean_row_by_row [ok_bar 1] [ok_bar 3]) (halted_bar 2)).
  reflexivity.
Defined.

(* ================================================================== *)
(** ** Further properties of the pipeline of one symbol *)

Section PipelineFacts.
Variable ak : provider.

(** The pipeline in terms of what the cleaner hands on. *)
Lemma process_single_stock_cases
    (to_csv : frame -> string -> outcome)
    (draw : frame -> string -> outcome * list record) (symbol : string) :
  process_single_stock ak to_csv draw symbol =
    let head :=
      [(INFO, MsgProcessing symbol)] ++ fetch_log ak symbol 3 ++
      snd (clean_data (fst (fetch_a_stock_data ak symbol 3))) in
    match fst (clean_data (fst (fetch_a_stock_data ak symbol 3))) with
    | None =>
        (Done, head ++ [(WARNING, MsgNothingToSave symbol);
                        (WARNING, MsgNothingToPlot symbol)])
    | Some d =>
        match to_csv d symbol with
        | Raised e => (Raised e, head)
        | Done =>
            (fst (draw d symbol),
             head ++ [(INFO, MsgSaved symbol)] ++ snd (draw d symbol))
        end
    end.
Proof.
  unfold process_single_stock, fetch_log.
  destruct (fetch_a_stock_data ak symbol 3) as [raw tr]. simpl fst. simpl snd.
  destruct raw as [df|];
    [|simpl; rewrite <- ?app_assoc; simpl; rewrite ?app_nil_r; reflexivity].
  rewrite clean_data_cases.
  destruct (empty df);
    [simpl; rewrite <- ?app_assoc; simpl; rewrite ?app_nil_r; reflexivity|].
  destruct (empty (filter valid_barb df)) eqn:E;
    [simpl; rewrite <- ?app_assoc; simpl; reflexivity|].
  simpl fst. simpl snd. cbv zeta.
  unfold save_to_csv, plot_stock_data. rewrite E.
  assert (Hc : empty (filter (fun r => notna (Close r))
                        (filter valid_barb df)) = false).
  { destruct (filter valid_barb df) as [|r d] eqn:Ef; [discriminate|].
    assert (Hr : valid_barb r = true).
    { assert (Hin : In r (filter valid_barb df))
        by (rewrite Ef; left; reflexivity).
      apply filter_In in Hin. apply Hin. }
    apply valid_barb_valid in Hr.
    destruct Hr as (_ & _ & _ & _ & (v & Ev & _)).
    simpl. unfold notna. rewrite Ev. reflexivity. }
  rewrite Hc.
  destruct (to_csv (filter valid_barb df) symbol) as [|e].
  - destruct (draw (filter valid_barb df) symbol) as [o4 l4].
    simpl. rewrite <- ?app_assoc. reflexivity.
  - simpl. rewrite ?app_nil_r. reflexivity.
Qed.
End PipelineFacts.

Lemma clean_some_valid (raw : option frame) (d : frame) :
  fst (clean_data raw) = Some d -> d <> [] /\ Forall valid_bar d.
Proof.
  destruct raw as [df|]; [|discriminate].
  rewrite clean_data_cases.
  destruct (empty df); [discriminate|].
  destruct (empty (filter valid_barb df)) eqn:E; [discriminate|].
  intros H. injection H as <-. split; [apply empty_false, E|].
  apply Forall_forall. intros r Hr. apply filter_In in Hr.
  apply valid_barb_valid, Hr.
Qed.

(** X7.  When the fetch gave nothing, or the cleaning kept nothing, the
    pipeline of the symbol ends normally without touching a file or a
    figure: neither sink is called, so the result is the same
    whatever the sinks would do, and the log ends with the two warnings
    that there is nothing to save and nothing to plot. *)
Theorem X7_nothing_to_save_or_plot :
  forall (ak : provider) (to_csv : frame -> string -> outcome)
         (draw : frame -> string -> outcome * list record) (symbol : string),
    fst (clean_data (fst (fetch_a_stock_data ak symbol 3))) = None ->
    process_single_stock ak to_csv draw symbol =
      (Done,
       ([(INFO, MsgProcessing symbol)] ++ fetch_log ak symbol 3 ++
        snd (clean_data (fst (fetch_a_stock_data ak symbol 3)))) ++
       [(WARNING, MsgNothingToSave symbol);
        (WARNING, MsgNothingToPlot symbol)]) /\
    (forall to_csv' draw',
       process_single_stock ak to_csv' draw' symbol =
       process_single_stock ak to_csv draw symbol).
Proof.
  intros ak to_csv draw symbol H. split.
  - rewrite process_single_stock_cases. cbv zeta. rewrite H. reflexivity.
  - intros to_csv' draw'. rewrite !process_single_stock_cases. cbv zeta.
    rewrite H. reflexivity.
Qed.

Lemma X7_witness :
  process_single_stock (always_raises "timeout") (csv_fails_for "600519")
    quiet_draw "600519" =
  (Done,
   [(INFO, MsgProcessing "600519");
    (WARNING, MsgRetry "600519" 1); (WARNING, MsgRetry "600519" 2);
    (ERROR, MsgFetchFailed "600519" "timeout");
    (WARNING, MsgNothingToSave "600519");
    (WARNING, MsgNothingToPlot "600519")]).
Proof.
  exact (proj1 (@X7_nothing_to_save_or_plot (always_raises "timeout")
                  (csv_fails_for "600519") quiet_draw "600519" eq_refl)).
Defined.

(** X8.  An exception leaves the pipeline of a symbol only from one of
    the two sinks: if [process_single_stock] raises [e], the cleaner
    returned a frame (with rows, all of them valid) and either writing
    it raised [e], and then the plot was not attempted, or writing it
    succeeded and drawing it raised [e].  Fetching and cleaning never
    raise. *)
Theorem X8_pipeline_raises_only_from_sinks :
  forall (ak : provider) (to_csv : frame -> string -> outcome)
         (draw : frame -> string -> outcome * list record)
         (symbol e : string),
    fst (process_single_stock ak to_csv draw symbol) = Raised e ->
    exists d,
      fst (clean_data (fst (fetch_a_stock_data ak symbol 3))) = Some d /\
      d <> [] /\ Forall valid_bar d /\
      ((to_csv d symbol = Raised e /\
        forall draw',
          process_single_stock ak to_csv draw' symbol =
          process_single_stock ak to_csv draw symbol) \/
       (to_csv d symbol = Done /\ fst (draw d symbol) = Raised e)).
Proof.
  intros ak to_csv draw symbol e H.
  rewrite process_single_stock_cases in H. cbv zeta in H.
  destruct (fst (clean_data (fst (fetch_a_stock_data ak symbol 3))))
    as [d|] eqn:Ec; [|discriminate].
  exists d. split; [reflexivity|].
  destruct (clean_some_valid _ Ec) as [Hne Hv].
  split; [exact Hne|]. split; [exact Hv|].
  destruct (to_csv d symbol) as [|e'] eqn:Et.
  - right. split; [reflexivity|exact H].
  - left. simpl in H. injection H as ->. split; [reflexivity|].
    intros draw'. rewrite !process_single_stock_cases. cbv zeta.
    rewrite Ec, Et. reflexivity.
Qed.

Lemma X8_witness :
  exists d,
    fst (clean_data
           (fst (fetch_a_stock_data (third_time with_halt) "300750" 3)))
      = Some d /\
    d <> [] /\ Forall valid_bar d /\
    ((csv_fails_for "300750" d "300750" = Raised "disk full" /\
      forall draw',
        process_single_stock (third_time with_halt)
          (csv_fails_for "300750") draw' "300750" =
        process_single_stock (third_time with_halt)
          (csv_fails_for "300750") quiet_draw "300750") \/
     (csv_fails_for "300750" d "300750" = Done /\
      fst (quiet_draw d "300750") = Raised "disk full")).
Proof.
  apply (@X8_pipeline_raises_only_from_sinks (third_time with_halt)
           (csv_fails_for "300750") quiet_draw "300750" "disk full").
  reflexivity.
Defined.

(** X9.  The sinks only ever see the frame that the cleaner returned for
    the symbol being processed, which has rows and only valid rows: two
    pairs of sinks that agree on such frames for this symbol give the
    same pipeline, whatever they do on empty frames, on frames with an
    invalid row or for another symbol. *)
Theorem X9_sinks_see_cleaned_frames_only :
  forall (ak : provider) (to_csv to_csv' : frame -> string -> outcome)
         (draw draw' : frame -> string -> outcome * list record)
         (symbol : string),
    (forall d, d <> [] -> Forall valid_bar d ->
       to_csv' d symbol = to_csv d symbol /\
       draw' d symbol = draw d symbol) ->
    process_single_stock ak to_csv' draw' symbol =
    process_single_stock ak to_csv draw symbol.
Proof.
  intros ak to_csv to_csv' draw draw' symbol H.
  rewrite !process_single_stock_cases. cbv zeta.
  destruct (fst (clean_data (fst (fetch_a_stock_data ak symbol 3))))
    as [d|] eqn:Ec; [|reflexivity].
  destruct (clean_some_valid _ Ec) as [Hne Hv].
  destruct (H d Hne Hv) as [-> ->]. reflexivity.
Qed.

Lemma X9_witness :
  process_single_stock (third_time with_halt)
    (fun d s => if empty d then Raised "empty" else Done) quiet_draw "600519"
  = process_single_stock (third_time with_halt)
      (fun _ _ => Done) quiet_draw "600519".
Proof.
  apply X9_sinks_see_cleaned_frames_only.
  intros d Hne _. split; [|reflexivity].
  destruct d; [contradiction|reflexivity].
Defined.

(* ================================================================== *)
(** ** Further properties of the batch run *)

Lemma length_set_nth {A} (l : list A) :
  forall (i : nat) (x : A), length (set_nth i x l) = length l.
Proof.
  induction l as [|y l IH]; intros [|i] x; simpl; auto.
Qed.

Lemma nth_error_set_nth_same {A} (l : list A) :
  forall (i : nat) (x : A),
    i < length l -> nth_error (set_nth i x l) i = Some x.
Proof.
  induction l as [|y l IH]; intros [|i] x H; simpl in *; try lia; auto.
  apply IH. lia.
Qed.

Lemma nth_error_set_nth_other {A} (l : list A) :
  forall (i j : nat) (x : A),
    i <> j -> nth_error (set_nth i x l) j = nth_error l j.
Proof.
  induction l as [|y l IH]; intros [|i] [|j] x H; simpl; auto; try lia.
Qed.

Lemma nth_error_lt {A} (l : list A) (i : nat) (x : A) :
  nth_error l i = Some x -> i < length l.
Proof. intros H. apply nth_error_Some. congruence. Qed.

Lemma stage_at_set_nth (ts : list (string * task_state)) (m : main_state)
    (lg : list record) (i j : nat) (sym : string) (t : task_state) :
  i < length ts ->
  stage_at (mkState (set_nth i (sym, t) ts) m lg) j =
    if Nat.eqb i j then stage t else stage_at (mkState ts m lg) j.
Proof.
  intros Hi. unfold stage_at. simpl.
  destruct (Nat.eqb_spec i j) as [<-|Hne].
  - rewrite nth_error_set_nth_same by exact Hi. reflexivity.
  - rewrite nth_error_set_nth_other by exact Hne. reflexivity.
Qed.

Lemma handled_weight (ts : list (string * task_state)) :
  forallb is_handled ts = true ->
  list_sum (map (fun t => weight_of (snd t)) ts) = 0.
Proof.
  induction ts as [|[sym st] ts IH]; simpl; [reflexivity|].
  intros H. apply andb_true_iff in H. destruct H as [H1 H2].
  destruct st; try discriminate. simpl. apply IH, H2.
Qed.

Lemma length_all_actions (n : nat) : length (all_actions n) = 3 * n + 1.
Proof.
  unfold all_actions. simpl.
  assert (H : forall a, length (flat_map
                (fun i => [Start i; Finish i; Handle i]) (seq a n)) = 3 * n).
  { induction n as [|n IH]; intros a; simpl; [reflexivity|].
    rewrite IH. lia. }
  rewrite H. lia.
Qed.

Lemma In_all_actions (n i : nat) :
  i < n ->
  In (Start i) (all_actions n) /\ In (Finish i) (all_actions n) /\
  In (Handle i) (all_actions n).
Proof.
  intros Hi. unfold all_actions.
  assert (Hs : In i (seq 0 n)) by (apply in_seq; lia).
  repeat split; right; apply in_flat_map; exists i; simpl; auto.
Qed.

Section ScheduleFacts.
Variable ak : provider.
Variable to_csv : frame -> string -> outcome.
Variable draw : frame -> string -> outcome * list record.

(** What one step needs and what it leaves. *)
Lemma exec_stage (a : action) (s s' : state) :
  exec ak to_csv draw a s = Some s' ->
  ~ spent a s /\ spent a s' /\
  (forall j, stage_at s j <= stage_at s' j) /\
  main s = Looping /\
  length (tasks s') = length (tasks s) /\
  In a (all_actions (length (tasks s))).
Proof.
  intros H. unfold exec in H.
  destruct s as [ts m lg]. simpl in H.
  destruct m; try discriminate.
  destruct a as [i|i|i|].
  - destruct (nth_error ts i) as [[sym st]|] eqn:En; [|discriminate].
    destruct st; try discriminate.
    destruct (length (filter is_running ts) <? max_workers); [|discriminate].
    injection H as <-. pose proof (nth_error_lt _ _ En) as Hi.
    unfold spent. rewrite !stage_at_set_nth by exact Hi.
    rewrite Nat.eqb_refl. simpl tasks. rewrite length_set_nth.
    assert (E0 : stage_at (mkState ts Looping lg) i = 0)
      by (unfold stage_at; simpl; rewrite En; reflexivity).
    rewrite E0. simpl.
    split; [lia|]. split; [lia|]. split.
    { intros j. rewrite stage_at_set_nth by exact Hi.
      destruct (Nat.eqb_spec i j) as [<-|_];
        [rewrite E0; simpl; lia|unfold stage_at; simpl; lia]. }
    split; [reflexivity|]. split; [reflexivity|].
    apply In_all_actions, Hi.
  - destruct (nth_error ts i) as [[sym st]|] eqn:En; [|discriminate].
    destruct st; try discriminate.
    injection H as <-. pose proof (nth_error_lt _ _ En) as Hi.
    unfold spent. rewrite !stage_at_set_nth by exact Hi.
    rewrite Nat.eqb_refl. simpl tasks. rewrite length_set_nth.
    assert (E0 : stage_at (mkState ts Looping lg) i = 1)
      by (unfold stage_at; simpl; rewrite En; reflexivity).
    rewrite E0. simpl.
    split; [lia|]. split; [lia|]. split.
    { intros j. rewrite stage_at_set_nth by exact Hi.
      destruct (Nat.eqb_spec i j) as [<-|_];
        [rewrite E0; simpl; lia|unfold stage_at; simpl; lia]. }
    split; [reflexivity|]. split; [reflexivity|].
    apply In_all_actions, Hi.
  - destruct (nth_error ts i) as [[sym st]|] eqn:En; [|discriminate].
    destruct st as [| |o|o]; try discriminate.
    pose proof (nth_error_lt _ _ En) as Hi.
    assert (E0 : stage_at (mkState ts Looping lg) i = 2)
      by (unfold stage_at; simpl; rewrite En; reflexivity).
    destruct o as [|e]; simpl in H; injection H as <-;
      unfold spent; rewrite !stage_at_set_nth by exact Hi;
      rewrite Nat.eqb_refl; simpl tasks; rewrite length_set_nth;
      rewrite E0; simpl;
      (split; [lia|]; split; [lia|]; split;
       [intros j; rewrite stage_at_set_nth by exact Hi;
        destruct (Nat.eqb_spec i j) as [<-|_];
        [rewrite E0; simpl; lia|unfold stage_at; simpl; lia]
       |split; [reflexivity|]; split; [reflexivity|];
        apply In_all_actions, Hi]).
  - destruct (forallb is_handled ts); [|discriminate].
    injection H as <-. simpl.
    split; [discriminate|]. split; [reflexivity|].
    split; [intros j; apply le_n|].
    split; [reflexivity|]. split; [reflexivity|].
    left. reflexivity.
Qed.

Lemma spent_persists (a b : action) (s s' : state) :
  exec ak to_csv draw b s = Some s' -> spent a s -> spent a s'.
Proof.
  intros H Ha. destruct (@exec_stage b s s' H) as (_ & _ & Hmono & Hm & _).
  destruct a as [i|i|i|]; unfold spent in *;
    try (eapply Nat.le_trans; [exact Ha|apply Hmono]).
  congruence.
Qed.

(** An action that was taken does not occur again. *)
Lemma run_spent (a : action) (sched : list action) :
  forall (s s' : state),
    spent a s -> run ak to_csv draw sched s = Some s' -> ~ In a sched.
Proof.
  induction sched as [|b sched IH]; intros s s' Ha H Hin; [destruct Hin|].
  simpl in H. destruct (exec ak to_csv draw b s) as [s1|] eqn:E;
    [|discriminate].
  destruct Hin as [->|Hin].
  - destruct (@exec_stage _ _ _ E) as (Hn & _). contradiction.
  - exact (IH s1 s' (@spent_persists _ _ _ _ E Ha) H Hin).
Qed.

Lemma run_nodup (sched : list action) :
  forall (s s' : state),
    run ak to_csv draw sched s = Some s' -> NoDup sched.
Proof.
  induction sched as [|b sched IH]; intros s s' H; [constructor|].
  simpl in H. destruct (exec ak to_csv draw b s) as [s1|] eqn:E;
    [|discriminate].
  destruct (@exec_stage b s s1 E) as (_ & Hs & _).
  constructor; [exact (@run_spent b sched s1 s' Hs H)|exact (IH s1 s' H)].
Qed.

Lemma run_incl (sched : list action) :
  forall (s s' : state),
    run ak to_csv draw sched s = Some s' ->
    incl sched (all_actions (length (tasks s))).
Proof.
  induction sched as [|b sched IH]; intros s s' H a Hin; [destruct Hin|].
  simpl in H. destruct (exec ak to_csv draw b s) as [s1|] eqn:E;
    [|discriminate].
  destruct (@exec_stage b s s1 E) as (_ & _ & _ & _ & Hlen & Hb).
  destruct Hin as [<-|Hin]; [exact Hb|].
  rewrite <- Hlen. exact (IH s1 s' H a Hin).
Qed.

End ScheduleFacts.

(** X11.  Every task goes through the pool exactly once.  No action
    occurs twice in a schedule that the run accepts, every action of it
    is on one of the submitted symbols, and when the run has returned
    the schedule is, up to order, the full list: each symbol started
    once, ended once, handled once, and one exit; no pipeline is
    skipped and none is run twice. *)
Theorem X11_each_task_exactly_once :
  forall (ak : provider) (to_csv : frame -> string -> outcome)
         (draw : frame -> string -> outcome * list record)
         (symbols : list string) (sched : list action) (s : state),
    batch_process ak to_csv draw symbols sched = Some s ->
    NoDup sched /\
    incl sched (all_actions (length symbols)) /\
    (main s = Returned ->
     length sched = 3 * length symbols + 1 /\
     Permutation sched (all_actions (length symbols))).
Proof.
  intros ak to_csv draw symbols sched s H. unfold batch_process in H.
  pose proof (@run_nodup ak to_csv draw sched _ _ H) as Hnd.
  pose proof (@run_incl ak to_csv draw sched _ _ H) as Hincl.
  assert (Hl : length (tasks (init symbols)) = length symbols)
    by (simpl; apply length_map).
  rewrite Hl in Hincl.
  split; [exact Hnd|]. split; [exact Hincl|].
  intros Em.
  destruct (init_invariant ak to_csv draw symbols) as [HI0 Hw0].
  destruct (@run_invariant ak to_csv draw symbols sched _ _ HI0 H)
    as [HI Hw].
  assert (Hlen : length sched = 3 * length symbols + 1).
  { unfold weight in Hw at 2.
    rewrite (handled_weight _ (inv_returned HI Em)), Em in Hw. lia. }
  split; [exact Hlen|].
  apply NoDup_Permutation_bis; [exact Hnd| |exact Hincl].
  rewrite length_all_actions. lia.
Qed.

Lemma X11_witness :
  NoDup sample_schedule /\
  incl sample_schedule (all_actions 3) /\
  (main sample_final = Returned ->
   length sample_schedule = 10 /\
   Permutation sample_schedule (all_actions 3)).
Proof.
  apply (@X11_each_task_exactly_once (third_time with_halt)
           (csv_fails_for "300750") quiet_draw a_stock_symbols
           sample_schedule sample_final).
  reflexivity.
Defined.

(* ================================================================== *)
(** ** Further properties of the indicator columns *)

Lemma map_fst_combine_seq {A} (l : list A) :
  forall a, map fst (combine l (seq a (length l))) = l.
Proof.
  induction l as [|x l IH]; intros a; simpl; [reflexivity|].
  rewrite IH. reflexivity.
Qed.

Lemma length_ewm_from (a : Qc) (s : series) :
  forall (weighted : cell) (old_wt : Qc),
    length (ewm_from a weighted old_wt s) = length s.
Proof.
  induction s as [|cur s IH]; intros weighted old_wt; [reflexivity|].
  cbn [ewm_from]. destruct weighted as [w|]; [destruct cur as [x|]|];
    cbn [length]; rewrite IH; reflexivity.
Qed.

Lemma length_ewm_mean (span : nat) (s : series) :
  length (ewm_mean span s) = length s.
Proof.
  destruct s as [|x0 s]; [reflexivity|].
  cbn [ewm_mean length]. rewrite length_ewm_from. reflexivity.
Qed.

Lemma length_MACD (close : series) : length (MACD close) = length close.
Proof.
  unfold MACD. cbv zeta. rewrite length_zip_with.
  - apply length_ewm_mean.
  - rewrite !length_ewm_mean. reflexivity.
Qed.

Lemma length_Signal (close : series) : length (Signal close) = length close.
Proof. unfold Signal. rewrite length_ewm_mean. apply length_MACD. Qed.

Lemma length_Hist (close : series) : length (Hist close) = length close.
Proof.
  unfold Hist. rewrite length_zip_with.
  - apply length_MACD.
  - rewrite length_MACD, length_Signal. reflexivity.
Qed.

Lemma length_RSI (close : series) : length (RSI close) = length close.
Proof. unfold RSI. rewrite length_map. apply length_rs. Qed.

Lemma add_indicators_nth (df : frame) (t : nat) (d : erow) :
  t < length df ->
  nth t (add_indicators df) d =
    mkERow (nth t df (base d))
      (nth t (MA 5 (map Close df)) None) (nth t (MA 10 (map Close df)) None)
      (nth t (MA 20 (map Close df)) None)
      (nth t (MACD (map Close df)) None) (nth t (Signal (map Close df)) None)
      (nth t (Hist (map Close df)) None)
      (nth t (RSI (map Close df)) XNaN).
Proof.
  intros Ht. unfold add_indicators. cbv zeta.
  rewrite (@nth_map_lt _ _ _ (combine df (seq 0 (length df))) t d
             (base d, 0)).
  - rewrite combine_nth by (rewrite length_seq; reflexivity).
    rewrite seq_nth by exact Ht. reflexivity.
  - rewrite length_combine, length_seq. lia.
Qed.



(* ------------------------------------------------------------------ *)

Lemma Qc_of_nat_S (n : nat) : Qc_of_nat (S n) = (1 + Qc_of_nat n)%Qc.
Proof.
  apply Qc_is_canon. rewrite Qc_this_plus.
  unfold Qc_of_nat, Qc_of_Z, Q2Qc. cbn [this].
  rewrite !Qred_correct, Nat2Z.inj_succ. unfold Z.succ.
  rewrite inject_Z_plus. change (Qred 1) with 1%Q. ring.
Qed.

Lemma Qc_of_nat_pos (n : nat) : (0 < Qc_of_nat (S n))%Qc.
Proof.
  induction n as [|n IH]; [reflexivity|].
  rewrite Qc_of_nat_S. revert IH. qc_to_q.
  change (this 1%Qc) with 1%Q. intros. lra.
Qed.

Lemma sum_cells_repeat (c : Qc) (n : nat) :
  sum_cells (repeat (Some c) n) = Some (c * Qc_of_nat n)%Qc.
Proof.
  induction n as [|n IH].
  - simpl. f_equal. symmetry. apply Qcmult_0_r.
  - cbn [repeat sum_cells]. rewrite IH. simpl. f_equal.
    rewrite Qc_of_nat_S. ring.
Qed.

Lemma skipn_repeat {A} (x : A) (k n : nat) :
  skipn k (repeat x n) = repeat x (n - k).
Proof.
  revert n. induction k as [|k IH]; intros [|n]; simpl; auto.
Qed.

Lemma firstn_repeat {A} (x : A) (k n : nat) :
  k <= n -> firstn k (repeat x n) = repeat x k.
Proof.
  revert n. induction k as [|k IH]; intros [|n] H; simpl; try lia; auto.
  rewrite IH by lia. reflexivity.
Qed.

Lemma window_repeat (c : cell) (n t len : nat) :
  n <= t + 1 -> t < len -> window n t (repeat c len) = repeat c n.
Proof.
  intros Hn Ht. unfold window. rewrite skipn_repeat.
  apply firstn_repeat. lia.
Qed.

(** X13.  A moving average over [n] bars of a constant close is the
    constant at every bar that has [n - 1] bars before it and is
    undefined at the bars before; so for the three windows of the
    scripts, over a close that stays at [c], MA5 is [c] from the fifth
    bar, MA10 from the tenth and MA20 from the twentieth. *)
Theorem X13_moving_average_of_constant :
  forall (c : Qc) (n len t : nat),
    1 <= n -> t < len ->
    nth t (MA n (repeat (Some c) len)) None =
      if t + 1 <? n then None else Some c.
Proof.
  intros c n len t Hn Ht. unfold MA.
  rewrite rolling_mean_nth by (rewrite repeat_length; exact Ht).
  destruct (t + 1 <? n) eqn:E; [reflexivity|].
  apply Nat.ltb_ge in E.
  rewrite window_repeat by assumption. rewrite sum_cells_repeat.
  f_equal. apply Qcdiv_mult_l.
  destruct n as [|n]; [lia|]. apply Qc_lt_neq, Qc_of_nat_pos.
Qed.

Lemma X13_witness :
  nth 3 (MA 5 (repeat (num 7) 30)) None = None /\
  nth 4 (MA 5 (repeat (num 7) 30)) None = num 7 /\
  nth 19 (MA 20 (repeat (num 7) 30)) None = num 7.
Proof.
  split; [|split].
  - apply (@X13_moving_average_of_constant (Qc_of_Z 7) 5 30 3); lia.
  - apply (@X13_moving_average_of_constant (Qc_of_Z 7) 5 30 4); lia.
  - apply (@X13_moving_average_of_constant (Qc_of_Z 7) 20 30 19); lia.
Defined.

(* ------------------------------------------------------------------ *)

Lemma ewm_step_formula (a w x : Qc) :
  ((1 * (1 - a) * w + a * x) / (1 * (1 - a) + a))%Qc =
  (a * x + (1 - a) * w)%Qc.
Proof.
  replace (1 * (1 - a) + a)%Qc with 1%Qc by ring.
  unfold Qcdiv. change (/ 1)%Qc with 1%Qc. ring.
Qed.

Lemma ewm_from_numbers (a : Qc) (xs : list Qc) :
  forall (w : Qc),
    ewm_from a (Some w) 1%Qc (map Some xs) = map Some (ema_from a w xs).
Proof.
  induction xs as [|x xs IH]; intros w; [reflexivity|].
  cbn [map ewm_from ema_from]. cbv zeta.
  rewrite ewm_step_formula, IH. reflexivity.
Qed.

(** Without a missing cell the exponential average of pandas is the
    seeded recursion. *)
Lemma ewm_mean_numbers (span : nat) (xs : list Qc) :
  ewm_mean span (map Some xs) = map Some (ema (alpha span) xs).
Proof.
  destruct xs as [|x0 xs]; [reflexivity|].
  cbn [map ewm_mean ema]. rewrite ewm_from_numbers. reflexivity.
Qed.

Lemma csub_numbers (xs ys : list Qc) :
  zip_with csub (map Some xs) (map Some ys) = map Some (minus_cols xs ys).
Proof.
  unfold minus_cols, zip_with. revert ys.
  induction xs as [|x xs IH]; intros [|y ys]; simpl; try reflexivity.
  rewrite IH. reflexivity.
Qed.

Lemma macd_family_numbers (xs : list Qc) :
  MACD (map Some xs) = map Some (macd_numbers xs) /\
  Signal (map Some xs) = map Some (signal_numbers xs) /\
  Hist (map Some xs) = map Some (hist_numbers xs).
Proof.
  assert (HM : MACD (map Some xs) = map Some (macd_numbers xs)).
  { unfold MACD, macd_numbers. cbv zeta.
    rewrite !ewm_mean_numbers. apply csub_numbers. }
  assert (HS : Signal (map Some xs) = map Some (signal_numbers xs)).
  { unfold Signal, signal_numbers. rewrite HM. apply ewm_mean_numbers. }
  split; [exact HM|]. split; [exact HS|].
  unfold Hist, hist_numbers. rewrite HM, HS. apply csub_numbers.
Qed.

Lemma Forall_map_Some (xs : list Qc) :
  Forall (fun c : cell => isna c = false) (map Some xs).
Proof. induction xs; simpl; constructor; auto. Qed.

(** X14.  When no close is missing, the three MACD columns are the
    seeded recursions on numbers: each exponential average starts at
    the first close and goes on with
    [y_t = alpha * x_t + (1 - alpha) * y_(t-1)], [alpha = 2/(span+1)];
    MACD is the average of span 12 minus that of span 26, Signal the
    average of span 9 of MACD, Hist their difference.  So MACD, Signal
    and Hist are defined at every bar, the first one included: these
    columns have no warm-up. *)
Theorem X14_macd_family_without_warmup :
  forall (xs : list Qc),
    ewm_mean 12 (map Some xs) = map Some (ema (alpha 12) xs) /\
    ewm_mean 26 (map Some xs) = map Some (ema (alpha 26) xs) /\
    MACD (map Some xs) = map Some (macd_numbers xs) /\
    Signal (map Some xs) = map Some (signal_numbers xs) /\
    Hist (map Some xs) = map Some (hist_numbers xs) /\
    Forall (fun c : cell => isna c = false) (MACD (map Some xs)) /\
    Forall (fun c : cell => isna c = false) (Signal (map Some xs)) /\
    Forall (fun c : cell => isna c = false) (Hist (map Some xs)).
Proof.
  intros xs. destruct (macd_family_numbers xs) as (HM & HS & HH).
  split; [apply ewm_mean_numbers|]. split; [apply ewm_mean_numbers|].
  split; [exact HM|]. split; [exact HS|]. split; [exact HH|].
  rewrite HM, HS, HH. repeat split; apply Forall_map_Some.
Qed.

(* ------------------------------------------------------------------ *)

Lemma Qc_this_mult (a b : Qc) : (this (a * b)%Qc == this a * this b)%Q.
Proof. unfold Qcmult, Q2Qc. cbn [this]. apply Qred_correct. Qed.

Lemma Qc_this_inv (a : Qc) : (this (/ a)%Qc == / this a)%Q.
Proof. unfold Qcinv, Q2Qc. cbn [this]. apply Qred_correct. Qed.

Lemma Qc_this_div (a b : Qc) : (this (a / b)%Qc == this a / this b)%Q.
Proof. unfold Qcdiv. rewrite Qc_this_mult, Qc_this_inv. reflexivity. Qed.

(** [100 - 100 / (1 + g / l)] lies between 0 and 100 when [g >= 0] and
    [l > 0]. *)
Lemma rsi_value_bounds (g l : Qc) :
  (0 <= g)%Qc -> (0 < l)%Qc ->
  (1 + g / l)%Qc <> 0%Qc /\
  (0 <= hundred - hundred / (1 + g / l))%Qc /\
  (hundred - hundred / (1 + g / l) <= hundred)%Qc.
Proof.
  intros Hg Hl.
  assert (Hr : (0 <= this g / this l)%Q).
  { apply Qle_shift_div_l; [exact Hl|]. unfold Qcle in Hg.
    change (this 0%Qc) with 0%Q in Hg. rewrite Qmult_0_l. exact Hg. }
  assert (Hd : (0 < 1 + this g / this l)%Q) by lra.
  assert (Hq1 : (0 <= 100 / (1 + this g / this l))%Q).
  { apply Qle_shift_div_l; [exact Hd|]. lra. }
  assert (Hq2 : (100 / (1 + this g / this l) <= 100)%Q).
  { apply Qle_shift_div_r; [exact Hd|]. lra. }
  split; [|split].
  - intros E. apply (f_equal this) in E.
    assert (E' : (this (1 + g / l)%Qc == 0)%Q) by (rewrite E; reflexivity).
    rewrite Qc_this_plus, Qc_this_div in E'.
    change (this 1%Qc) with 1%Q in E'. lra.
  - unfold Qcle. rewrite Qc_this_minus, Qc_this_div, Qc_this_plus,
      Qc_this_div.
    change (this hundred) with 100%Q. change (this 1%Qc) with 1%Q.
    change (this 0%Qc) with 0%Q. lra.
  - unfold Qcle. rewrite Qc_this_minus, Qc_this_div, Qc_this_plus,
      Qc_this_div.
    change (this hundred) with 100%Q. change (this 1%Qc) with 1%Q. lra.
Qed.

Lemma nonneg_cases (c : cell) :
  nonneg c -> c = Some 0%Qc \/ positive c.
Proof.
  intros (v & -> & Hv). destruct (Qcle_lt_or_eq _ _ Hv) as [H|H].
  - right. exists v. auto.
  - left. subst v. reflexivity.
Qed.

(** Gain and loss of one difference are never negative, whatever the
    difference (a missing one counts as zero). *)
Lemma gain_loss_nonneg (d : cell) :
  nonneg (if gt0 d then d else Some 0%Qc) /\
  nonneg (cneg (if lt0 d then d else Some 0%Qc)).
Proof.
  destruct d as [v|]; simpl; [|split; apply zero_nonneg].
  split.
  - destruct (Qcltb 0 v) eqn:E; [|apply zero_nonneg].
    apply Qcltb_lt in E. exists v. split; [reflexivity|].
    apply Qclt_le_weak, E.
  - destruct (Qcltb v 0) eqn:E; [|apply zero_nonneg].
    apply Qcltb_lt in E. exists (- v)%Qc. split; [reflexivity|].
    revert E. qc_to_q. intros. lra.
Qed.

Lemma gain_loss_columns_nonneg (close : series) :
  Forall nonneg (gain close) /\ Forall nonneg (loss close).
Proof.
  split; apply Forall_nth; intros i d Hi.
  - rewrite length_gain in Hi.
    rewrite (nth_indep _ d None) by (rewrite length_gain; exact Hi).
    rewrite gain_nth by exact Hi. apply gain_loss_nonneg.
  - rewrite length_loss in Hi.
    rewrite (nth_indep _ d None) by (rewrite length_loss; exact Hi).
    rewrite loss_nth by exact Hi. apply gain_loss_nonneg.
Qed.

(** The 14-bar mean of a column without negative cell is defined and
    not negative from the fourteenth bar on. *)
Lemma rolling14_nonneg (s : series) (t : nat) :
  Forall nonneg s -> 13 <= t -> t < length s ->
  nonneg (nth t (rolling_mean 14 s) None).
Proof.
  intros Hs H13 Ht. rewrite rolling_mean_nth by exact Ht.
  assert (Hb : (t + 1 <? 14) = false) by (apply Nat.ltb_ge; lia).
  rewrite Hb.
  destruct (sum_cells_nonneg (Forall_window 14 t Hs)) as (total & -> & Htot).
  exists (total / Qc_of_nat 14)%Qc. split; [reflexivity|].
  destruct (Qcle_lt_or_eq _ _ Htot) as [H|H].
  - apply Qclt_le_weak, Qc_div14_pos, H.
  - subst total. unfold Qcdiv. rewrite Qcmult_0_l. apply Qcle_refl.
Qed.


Lemma rsi_of_ratio (g l : cell) :
  nonneg g -> nonneg l -> rsi_in_range (rsi_of_rs (cdiv g l)).
Proof.
  intros Hg Hl.
  destruct (nonneg_cases Hl) as [->|(lv & -> & Hlv)].
  - destruct (nonneg_cases Hg) as [->|Hgp].
    + left. reflexivity.
    + rewrite (cdiv_pos_zero Hgp). right. exists hundred.
      split; [apply rsi_of_rs_inf|].
      split; [apply Qclt_le_weak; reflexivity|apply Qcle_refl].
  - destruct Hg as (gv & -> & Hgv).
    destruct (rsi_value_bounds Hgv Hlv) as (Hne & H0 & H100).
    right. exists (hundred - hundred / (1 + gv / lv))%Qc.
    split; [|split; assumption].
    simpl. rewrite (Qc_eq_bool_false (Qc_lt_neq Hlv)).
    unfold rsi_of_rs. simpl. rewrite (Qc_eq_bool_false Hne). reflexivity.
Qed.

(** X15.  The RSI is an oscillator between 0 and 100: whatever the
    closes (missing ones included), each cell of the RSI column is
    either undefined or a number from 0 to 100; it is never infinite,
    although the ratio of mean gain to mean loss can be. *)
Theorem X15_rsi_between_0_and_100 :
  forall (close : series) (t : nat),
    rsi_in_range (nth t (RSI close) XNaN).
Proof.
  intros close t.
  destruct (Nat.lt_ge_cases t (length close)) as [Ht|Ht].
  - rewrite RSI_nth, rs_nth by exact Ht.
    destruct (Nat.lt_ge_cases t 13) as [H13|H13].
    + unfold avg_gain. rewrite rolling_mean_warmup by lia.
      left. reflexivity.
    + destruct (gain_loss_columns_nonneg close) as [Hg Hl].
      apply rsi_of_ratio.
      * unfold avg_gain. apply rolling14_nonneg; [exact Hg|exact H13|].
        rewrite length_gain. exact Ht.
      * unfold avg_loss. apply rolling14_nonneg; [exact Hl|exact H13|].
        rewrite length_loss. exact Ht.
  - left. apply nth_overflow. rewrite length_RSI. exact Ht.
Qed.

(* ------------------------------------------------------------------ *)

Lemma map_constant {A B} (f : A -> B) (l : list A) (y : B) :
  (forall x, In x l -> f x = y) -> map f l = repeat y (length l).
Proof.
  induction l as [|x l IH]; intros H; simpl; [reflexivity|].
  rewrite (H x (or_introl eq_refl)), IH; [reflexivity|].
  intros z Hz. apply H. right. exact Hz.
Qed.

Lemma gain_loss_flat (c : Qc) (n : nat) :
  Forall (fun x => x = Some 0%Qc) (gain (repeat (Some c) n)) /\
  Forall (fun x => x = Some 0%Qc) (loss (repeat (Some c) n)).
Proof.
  assert (Hd : forall i, i < n ->
            nth i (diff (repeat (Some c) n)) None = None \/
            nth i (diff (repeat (Some c) n)) None = Some 0%Qc).
  { intros [|i] Hi; [left; apply diff_nth_0|right].
    rewrite diff_nth_S by (rewrite repeat_length; exact Hi).
    rewrite !nth_repeat_lt by lia. apply csub_self. }
  split; apply Forall_nth; intros i d Hi.
  - rewrite length_gain, repeat_length in Hi.
    rewrite (nth_indep _ d None)
      by (rewrite length_gain, repeat_length; exact Hi).
    rewrite gain_nth by (rewrite repeat_length; exact Hi).
    destruct (Hd i Hi) as [-> | ->]; reflexivity.
  - rewrite length_loss, repeat_length in Hi.
    rewrite (nth_indep _ d None)
      by (rewrite length_loss, repeat_length; exact Hi).
    rewrite loss_nth by (rewrite repeat_length; exact Hi).
    destruct (Hd i Hi) as [-> | ->]; reflexivity.
Qed.

(** Over a close that never moves the RSI is undefined at every bar:
    both means are zero and their ratio is [0/0]. *)
Lemma RSI_flat (c : Qc) (n t : nat) :
  nth t (RSI (repeat (Some c) n)) XNaN = XNaN.
Proof.
  destruct (Nat.lt_ge_cases t n) as [Ht|Ht].
  - rewrite RSI_nth, rs_nth by (rewrite repeat_length; exact Ht).
    destruct (Nat.lt_ge_cases t 13) as [H13|H13].
    + unfold avg_gain. rewrite rolling_mean_warmup by lia. reflexivity.
    + destruct (gain_loss_flat c n) as [Hg Hl].
      unfold avg_gain, avg_loss.
      rewrite (rolling14_zero Hg H13)
        by (rewrite length_gain, repeat_length; exact Ht).
      rewrite (rolling14_zero Hl H13)
        by (rewrite length_loss, repeat_length; exact Ht).
      reflexivity.
  - apply nth_overflow. rewrite length_RSI, repeat_length. exact Ht.
Qed.

(** X16.  A close that never moves gives an empty chart, however long
    the series: mean gain and mean loss are both zero, their ratio
    [0/0] is undefined, so the RSI is undefined on every row and the
    final trim of [get_stock_data] removes every row. *)
Theorem X16_flat_close_gives_no_rows :
  forall (ak : string -> Z -> Z -> response) (symbol : string)
         (start_date end_date : Z) (df : frame) (c : Qc)
         (indicators : list string),
    ak (split_dot_head symbol) start_date end_date = Returns df ->
    (forall r, In r df -> Close r = Some c) ->
    (forall t, nth t (RSI (map Close df)) XNaN = XNaN) /\
    rows_of (fst (get_stock_data ak symbol start_date end_date)) = [] /\
    update_chart ak symbol start_date end_date indicators = EmptyFigure.
Proof.
  intros ak symbol sd ed df c inds Hak Hflat.
  assert (HR : forall t, nth t (RSI (map Close df)) XNaN = XNaN).
  { intros t. rewrite (map_constant Close df Hflat). apply RSI_flat. }
  assert (Hrows : rows_of (fst (get_stock_data ak symbol sd ed)) = []).
  { unfold get_stock_data. rewrite Hak.
    destruct (empty df); simpl; [reflexivity|].
    unfold dropna. apply filter_none. intros r Hr.
    unfold add_indicators in Hr. apply in_map_iff in Hr.
    destruct Hr as ([b t] & <- & _). unfold complete. simpl.
    rewrite HR. simpl. apply andb_false_r. }
  split; [exact HR|]. split; [exact Hrows|].
  unfold update_chart, df_empty. rewrite Hrows. reflexivity.
Qed.

Lemma X16_witness :
  rows_of (fst (get_stock_data
                  (answer_with (bars_of_closes (repeat 10%Z 25)))
                  "600519" 0 0)) = [] /\
  update_chart (answer_with (bars_of_closes (repeat 10%Z 25)))
    "600519" 0 0 ["RSI"%string] = EmptyFigure.
Proof.
  assert (Hflat : forall r, In r (bars_of_closes (repeat 10%Z 25)) ->
                            Close r = Some (Qc_of_Z 10)).
  { intros r Hr. unfold bars_of_closes in Hr. apply in_map_iff in Hr.
    destruct Hr as ([i z] & <- & Hin). simpl.
    apply in_combine_r in Hin. apply repeat_spec in Hin. subst z.
    reflexivity. }
  pose proof (@X16_flat_close_gives_no_rows
                (answer_with (bars_of_closes (repeat 10%Z 25)))
                "600519" 0%Z 0%Z (bars_of_closes (repeat 10%Z 25))
                (Qc_of_Z 10) ["RSI"%string] eq_refl Hflat) as (_ & H2 & H3).
  split; [exact H2 | exact H3].
Defined.

(* ------------------------------------------------------------------ *)

Lemma In_firstn_nth {A} (k : nat) (l : list A) (x d : A) :
  In x (firstn k l) -> exists t, t < k /\ t < length l /\ x = nth t l d.
Proof.
  intros H. destruct (In_nth _ _ d H) as (t & Ht & E).
  rewrite length_firstn in Ht. exists t.
  split; [lia|]. split; [lia|].
  rewrite nth_firstn in E.
  assert (Hb : (t <? k) = true) by (apply Nat.ltb_lt; lia).
  rewrite Hb in E. symmetry. exact E.
Qed.

Lemma get_stock_data_rows (ak : string -> Z -> Z -> response)
    (symbol : string) (sd ed : Z) (df : frame) :
  ak (split_dot_head symbol) sd ed = Returns df ->
  rows_of (fst (get_stock_data ak symbol sd ed)) =
    filter complete (add_indicators df).
Proof.
  intros H. unfold get_stock_data. rewrite H.
  destruct df; reflexivity.
Qed.

(** The first nineteen rows never pass the trim. *)
Lemma warmup_rows_dropped (df : frame) :
  filter complete (add_indicators df) =
  filter complete (skipn 19 (add_indicators df)).
Proof.
  rewrite <- (firstn_skipn 19 (add_indicators df)) at 1.
  rewrite filter_app.
  rewrite (@filter_none _ complete (firstn 19 (add_indicators df)));
    [reflexivity|].
  intros r Hr.
  destruct (In_firstn_nth 19 (add_indicators df) r r Hr)
    as (t & Ht & Hl & E).
  assert (Hl' : t < length df).
  { unfold add_indicators in Hl.
    rewrite length_map, length_combine, length_seq in Hl. lia. }
  rewrite add_indicators_nth in E by exact Hl'.
  unfold complete. rewrite E. cbn [MA20].
  unfold MA. rewrite (@rolling_mean_warmup 20 t (map Close df)) by lia.
  simpl. rewrite !andb_false_r. reflexivity.
Qed.

(** X17.  What [get_stock_data] returns is cut out of the full frame
    after the indicators were computed on all of it: the returned rows
    are, in order, rows of the enriched frame from the twentieth on, so
    each keeps the cells computed with the rows before it that were
    dropped; their bars are a sub-sequence of the fetched bars after
    the first nineteen; and at most [n - 19] rows come back from [n]. *)
Theorem X17_returned_rows_follow_warmup :
  forall (ak : string -> Z -> Z -> response) (symbol : string)
         (start_date end_date : Z) (df : frame),
    ak (split_dot_head symbol) start_date end_date = Returns df ->
    Subseq (rows_of (fst (get_stock_data ak symbol start_date end_date)))
      (skipn 19 (add_indicators df)) /\
    Subseq (map base
              (rows_of (fst (get_stock_data ak symbol start_date end_date))))
      (skipn 19 df) /\
    length (rows_of (fst (get_stock_data ak symbol start_date end_date)))
      <= length df - 19.
Proof.
  intros ak symbol sd ed df Hak.
  rewrite (get_stock_data_rows ak symbol sd ed Hak), warmup_rows_dropped.
  assert (H1 : Subseq (filter complete (skipn 19 (add_indicators df)))
                 (skipn 19 (add_indicators df))) by apply Subseq_filter.
  assert (Hb : map base (skipn 19 (add_indicators df)) = skipn 19 df).
  { rewrite <- skipn_map. f_equal. unfold add_indicators. cbv zeta.
    rewrite map_map. simpl. apply map_fst_combine_seq. }
  split; [exact H1|]. split.
  - rewrite <- Hb. apply Subseq_map, H1.
  - apply Subseq_length in H1. rewrite length_skipn in H1.
    assert (Hl : length (add_indicators df) = length df).
    { unfold add_indicators.
      rewrite length_map, length_combine, length_seq. lia. }
    rewrite Hl in H1. exact H1.
Qed.

Lemma X17_witness :
  length (rows_of (fst (get_stock_data
                          (answer_with (bars_of_closes long_closes))
                          "600519" 0 0)))
    <= length (bars_of_closes long_closes) - 19.
Proof.
  apply (@X17_returned_rows_follow_warmup
           (answer_with (bars_of_closes long_closes)) "600519" 0%Z 0%Z
           (bars_of_closes long_closes)).
  reflexivity.
Defined.

(* ------------------------------------------------------------------ *)

Lemma sum_cells_defined (w : series) :
  Forall (fun c : cell => isna c = false) w ->
  exists v, sum_cells w = Some v.
Proof.
  induction 1 as [|c w Hc Hw IH]; simpl; [eauto|].
  destruct IH as [v ->]. destruct c as [x|]; [|discriminate].
  simpl. eauto.
Qed.

Lemma rolling_mean_defined (n t : nat) (s : series) :
  Forall (fun c : cell => isna c = false) s ->
  n <= t + 1 -> t < length s ->
  isna (nth t (rolling_mean n s) None) = false.
Proof.
  intros Hs Hn Ht. rewrite rolling_mean_nth by exact Ht.
  assert (Hb : (t + 1 <? n) = false) by (apply Nat.ltb_ge; lia).
  rewrite Hb.
  destruct (sum_cells_defined (Forall_window n t Hs)) as [v ->].
  reflexivity.
Qed.

Lemma numbers_of_cells (s : series) :
  Forall (fun c : cell => isna c = false) s ->
  exists xs, s = map Some xs.
Proof.
  induction 1 as [|c s Hc Hs IH]; [exists []; reflexivity|].
  destruct IH as [xs ->]. destruct c as [x|]; [|discriminate].
  exists (x :: xs). reflexivity.
Qed.

Lemma closes_present (df : frame) :
  (forall r, In r df -> forallb notna (cells r) = true) ->
  Forall (fun c : cell => isna c = false) (map Close df).
Proof.
  intros H. apply Forall_forall. intros c Hc. apply in_map_iff in Hc.
  destruct Hc as (r & <- & Hr). specialize (H r Hr).
  unfold cells in H. simpl in H.
  apply andb_true_iff in H. destruct H as [_ H].
  apply andb_true_iff in H. destruct H as [H _].
  unfold notna in H. apply negb_true_iff in H. exact H.
Qed.

Lemma nth_defined (s : series) (t : nat) :
  Forall (fun c : cell => isna c = false) s -> t < length s ->
  notna (nth t s None) = true.
Proof.
  intros Hs Ht. unfold notna. apply negb_true_iff.
  exact (proj1 (Forall_nth _ s) Hs t None Ht).
Qed.

(** X18.  Which rows come back.  When no cell of the fetched frame is
    missing, the row at position [t >= 19] is returned exactly when its
    RSI is defined: from the twentieth bar on the three moving averages
    and the three MACD columns are always defined, so the RSI alone
    decides. *)
Theorem X18_kept_row_iff_rsi_defined :
  forall (ak : string -> Z -> Z -> response) (symbol : string)
         (start_date end_date : Z) (df : frame) (t : nat) (d : erow),
    ak (split_dot_head symbol) start_date end_date = Returns df ->
    (forall r, In r df -> forallb notna (cells r) = true) ->
    19 <= t -> t < length df ->
    (In (nth t (add_indicators df) d)
        (rows_of (fst (get_stock_data ak symbol start_date end_date))) <->
     x_isna (nth t (RSI (map Close df)) XNaN) = false).
Proof.
  intros ak symbol sd ed df t d Hak Hfull H19 Ht.
  rewrite (get_stock_data_rows ak symbol sd ed Hak).
  pose proof (closes_present df Hfull) as Hc.
  assert (Hlc : length (map Close df) = length df) by apply length_map.
  split.
  - intros Hin. apply filter_In in Hin. destruct Hin as [_ Hcomp].
    rewrite add_indicators_nth in Hcomp by exact Ht.
    unfold complete in Hcomp. cbn [RSI_] in Hcomp.
    apply andb_true_iff in Hcomp. destruct Hcomp as [_ Hr].
    apply negb_true_iff in Hr. exact Hr.
  - intros Hr. apply filter_In. split.
    + apply nth_In. unfold add_indicators.
      rewrite length_map, length_combine, length_seq. lia.
    + rewrite add_indicators_nth by exact Ht.
      destruct (numbers_of_cells Hc) as [xs Exs].
      destruct (macd_family_numbers xs) as (HM & HS & HH).
      unfold complete.
      cbn [base MA5 MA10 MA20 MACD_ Signal_ Hist_ RSI_].
      rewrite (Hfull (nth t df (base d)) (nth_In df (base d) Ht)).
      assert (FM : Forall (fun c : cell => isna c = false)
                     (MACD (map Close df)))
        by (rewrite Exs, HM; apply Forall_map_Some).
      assert (FS : Forall (fun c : cell => isna c = false)
                     (Signal (map Close df)))
        by (rewrite Exs, HS; apply Forall_map_Some).
      assert (FH : Forall (fun c : cell => isna c = false)
                     (Hist (map Close df)))
        by (rewrite Exs, HH; apply Forall_map_Some).
      assert (HMA : forall n, n <= 20 ->
                notna (nth t (MA n (map Close df)) None) = true).
      { intros n Hn. unfold notna, MA.
        rewrite rolling_mean_defined; [reflexivity|exact Hc|lia|].
        rewrite Hlc. exact Ht. }
      rewrite !HMA by lia.
      rewrite (nth_defined FM) by (rewrite length_MACD, Hlc; exact Ht).
      rewrite (nth_defined FS) by (rewrite length_Signal, Hlc; exact Ht).
      rewrite (nth_defined FH) by (rewrite length_Hist, Hlc; exact Ht).
      rewrite Hr. reflexivity.
Qed.

Lemma long_closes_present :
  forall r, In r (bars_of_closes long_closes) ->
            forallb notna (cells r) = true.
Proof.
  intros r Hr. unfold bars_of_closes in Hr. apply in_map_iff in Hr.
  destruct Hr as ([i z] & <- & _). reflexivity.
Defined.

Lemma X18_witness :
  In (nth 20 (add_indicators (bars_of_closes long_closes)) blank_row)
     (rows_of (fst (get_stock_data
                      (answer_with (bars_of_closes long_closes))
                      "600519" 0 0))) <->
  x_isna (nth 20 (RSI (map Close (bars_of_closes long_closes))) XNaN)
    = false.
Proof.
  apply (@X18_kept_row_iff_rsi_defined
           (answer_with (bars_of_closes long_closes)) "600519" 0%Z 0%Z
           (bars_of_closes long_closes) 20 blank_row).
  - reflexivity.
  - exact long_closes_present.
  - lia.
  - vm_compute. lia.
Defined.

(* ================================================================== *)
(** ** The pipeline of the static-chart script *)

(** X19.  In the static-chart script a drawing error never fails a
    symbol: its chart function catches every exception of its body and
    logs it, so the pipeline of a symbol raises only when the cleaned
    frame could not be written, with that very exception, and whether
    it raises does not depend on what the drawing does. *)
Theorem X19_static_chart_errors_are_swallowed :
  forall (ak : provider) (to_csv : frame -> string -> outcome)
         (render : frame -> string -> outcome) (symbol : string),
    (forall df, fst (plot_stock_data_pro render df symbol) = Done) /\
    (forall e,
       fst (process_single_stock_pro ak to_csv render symbol) = Raised e <->
       exists d,
         fst (clean_data (fst (fetch_a_stock_data ak symbol 3))) = Some d /\
         to_csv d symbol = Raised e) /\
    (forall render',
       fst (process_single_stock_pro ak to_csv render' symbol) =
       fst (process_single_stock_pro ak to_csv render symbol)).
Proof.
  intros ak to_csv render symbol.
  assert (Hplot : forall r df, fst (plot_stock_data_pro r df symbol) = Done).
  { intros r [d|]; simpl; [|reflexivity].
    destruct (empty d); [reflexivity|].
    destruct (r d symbol); reflexivity. }
  assert (Hfst : forall r,
            fst (process_single_stock_pro ak to_csv r symbol) =
            match fst (clean_data (fst (fetch_a_stock_data ak symbol 3)))
            with
            | None => Done
            | Some d => to_csv d symbol
            end).
  { intros r. unfold process_single_stock_pro.
    destruct (fetch_a_stock_data ak symbol 3) as [raw tr]. simpl fst.
    pose proof (@clean_some_valid raw) as Hv.
    destruct (clean_data raw) as [[d|] l2]; simpl fst in *.
    - destruct (Hv d eq_refl) as [Hne _]. apply empty_false in Hne.
      unfold save_to_csv. rewrite Hne.
      destruct (to_csv d symbol); [|reflexivity].
      unfold plot_stock_data_pro. rewrite ?Hne.
      destruct (r d symbol); reflexivity.
    - simpl. reflexivity. }
  split; [exact (Hplot render)|]. split.
  - intros e. rewrite Hfst.
    destruct (fst (clean_data (fst (fetch_a_stock_data ak symbol 3))))
      as [d|]; split.
    + intros H. exists d. auto.
    + intros (d' & E & H). injection E as <-. exact H.
    + discriminate.
    + intros (d' & E & _). discriminate.
  - intros render'. rewrite !Hfst. reflexivity.
Qed.

Lemma X19_witness :
  fst (process_single_stock_pro (third_time with_halt)
         (csv_fails_for "300750") (fun _ _ => Raised "no display")
         "300750") = Raised "disk full" /\
  fst (process_single_stock_pro (third_time with_halt)
         (csv_fails_for "300750") (fun _ _ => Raised "no display")
         "600519") = Done.
Proof.
  split.
  - apply (proj1 (proj2 (X19_static_chart_errors_are_swallowed
                           (third_time with_halt) (csv_fails_for "300750")
                           (fun _ _ => Raised "no display") "300750"))
             "disk full"%string).
    exists [ok_bar 1; ok_bar 3]. split; reflexivity.
  - rewrite (proj2 (proj2 (X19_static_chart_errors_are_swallowed
                             (third_time with_halt) (csv_fails_for "300750")
                             (fun _ _ => Done) "600519"))
               (fun _ _ => Raised "no display")).
    reflexivity.
Defined.

(* ================================================================== *)
(** ** The order of the log of the loop *)

Section LoopLogFacts.
Variable ak : provider.
Variable to_csv : frame -> string -> outcome.
Variable draw : frame -> string -> outcome * list record.

Lemma exec_log (symbols : list string) (a : action) (s s1 : state) :
  invariant ak to_csv draw symbols s ->
  exec ak to_csv draw a s = Some s1 ->
  main_log s1 = main_log s ++ handle_record ak to_csv draw symbols a.
Proof.
  intros HI H. unfold exec in H.
  destruct (main s); try discriminate.
  destruct a as [i|i|i|]; simpl handle_record.
  - destruct (nth_error (tasks s) i) as [[sym st]|]; [|discriminate].
    destruct st; try discriminate.
    destruct (length (filter is_running (tasks s)) <? max_workers);
      [|discriminate].
    injection H as <-. simpl. rewrite app_nil_r. reflexivity.
  - destruct (nth_error (tasks s) i) as [[sym st]|]; [|discriminate].
    destruct st; try discriminate.
    injection H as <-. simpl. rewrite app_nil_r. reflexivity.
  - destruct (nth_error (tasks s) i) as [[sym st]|] eqn:En; [|discriminate].
    destruct st as [| |o|o]; try discriminate.
    assert (Es : nth_error symbols i = Some sym).
    { rewrite <- (inv_symbols HI).
      rewrite nth_error_map, En. reflexivity. }
    assert (Eo : o = fst (process_single_stock ak to_csv draw sym)).
    { pose proof (inv_outcomes HI) as Ho.
      rewrite Forall_forall in Ho.
      exact (Ho (sym, Finished o) (nth_error_In _ _ En)). }
    rewrite Es, <- Eo.
    destruct o as [|e]; simpl in H; injection H as <-; reflexivity.
  - destruct (forallb is_handled (tasks s)); [|discriminate].
    injection H as <-. simpl. rewrite app_nil_r. reflexivity.
Qed.

Lemma run_log (symbols : list string) (sched : list action) :
  forall (s s' : state),
    invariant ak to_csv draw symbols s ->
    run ak to_csv draw sched s = Some s' ->
    main_log s' =
      main_log s ++ flat_map (handle_record ak to_csv draw symbols) sched.
Proof.
  induction sched as [|a sched IH]; intros s s' HI H; simpl in H.
  - injection H as <-. simpl. rewrite app_nil_r. reflexivity.
  - destruct (exec ak to_csv draw a s) as [s1|] eqn:E; [|discriminate].
    destruct (@exec_invariant ak to_csv draw symbols a s s1 HI E)
      as [HI1 _].
    rewrite (IH s1 s' HI1 H), (@exec_log symbols a s s1 HI E). simpl.
    rewrite <- app_assoc. reflexivity.
Qed.
End LoopLogFacts.

(** X20.  The log of the loop follows the order in which the tasks
    complete, not the order of the symbol list: after the opening
    record it holds, for each future in the order in which the loop
    receives them, the error record of its symbol when and only when
    the pipeline of that symbol raised. *)
Theorem X20_log_in_completion_order :
  forall (ak : provider) (to_csv : frame -> string -> outcome)
         (draw : frame -> string -> outcome * list record)
         (symbols : list string) (sched : list action) (s : state),
    batch_process ak to_csv draw symbols sched = Some s ->
    main_log s =
      (INFO, MsgBatchStart)
        :: flat_map (handle_record ak to_csv draw symbols) sched.
Proof.
  intros ak to_csv draw symbols sched s H. unfold batch_process in H.
  destruct (init_invariant ak to_csv draw symbols) as [HI0 _].
  rewrite (@run_log ak to_csv draw symbols sched _ _ HI0 H). reflexivity.
Qed.

Lemma X20_witness :
  main_log sample_final =
    (INFO, MsgBatchStart)
      :: flat_map (handle_record (third_time with_halt)
                     (csv_fails_for "300750") quiet_draw a_stock_symbols)
           sample_schedule.
Proof.
  apply (@X20_log_in_completion_order (third_time with_halt)
           (csv_fails_for "300750") quiet_draw a_stock_symbols
           sample_schedule sample_final).
  reflexivity.
Defined.

(* ================================================================== *)
(** ** The trim of undefined rows, in the two scripts *)

Lemma length_add_indicators (df : frame) :
  length (add_indicators df) = length df.
Proof.
  unfold add_indicators. rewrite length_map, length_combine, length_seq.
  lia.
Qed.

Lemma RSI_warmup (close : series) (t : nat) :
  t < 13 -> nth t (RSI close) XNaN = XNaN.
Proof.
  intros Ht. destruct (Nat.lt_ge_cases t (length close)) as [Hl|Hl].
  - rewrite RSI_nth, rs_nth by exact Hl.
    unfold avg_gain. rewrite rolling_mean_warmup by lia. reflexivity.
  - apply nth_overflow. rewrite length_RSI. exact Hl.
Qed.

(** The rows that the static-chart script draws, with their warm-up. *)
Lemma plotted_frame_warmup (df : frame) (t : nat) (d : erow) :
  t < length df ->
  (t < 4 -> MA5 (nth t (plotted_frame df) d) = None) /\
  (t < 9 -> MA10 (nth t (plotted_frame df) d) = None) /\
  (t < 19 -> MA20 (nth t (plotted_frame df) d) = None) /\
  (t < 13 -> RSI_ (nth t (plotted_frame df) d) = XNaN).
Proof.
  intros Ht. unfold plotted_frame.
  rewrite add_indicators_nth by exact Ht. cbn [MA5 MA10 MA20 RSI_].
  unfold MA.
  repeat split; intros H;
    try (apply rolling_mean_warmup; lia).
  apply RSI_warmup, H.
Qed.

(** C2 as stated fails on the cleaned series: the static-chart script,
    the one that computes the derived columns on what [clean_data]
    returned, drops no row.  The frame of twenty-two valid bars is
    returned whole by the cleaner, all its twenty-two rows are drawn,
    and the first of them has an undefined MA5. *)
Lemma C2_counterexample :
  fst (clean_data (Some (bars_of_closes long_closes))) =
    Some (bars_of_closes long_closes) /\
  length (plotted_frame (bars_of_closes long_closes)) = 22 /\
  MA5 (nth 0 (plotted_frame (bars_of_closes long_closes)) blank_row)
    = None /\
  ~ (forall (df out : frame),
       fst (clean_data (Some df)) = Some out ->
       forall r, In r (plotted_frame out) -> derived_defined r).
Proof.
  assert (Hc : fst (clean_data (Some (bars_of_closes long_closes))) =
               Some (bars_of_closes long_closes)) by reflexivity.
  assert (Hl : length (plotted_frame (bars_of_closes long_closes)) = 22).
  { unfold plotted_frame. rewrite length_add_indicators. reflexivity. }
  assert (Hm : MA5 (nth 0 (plotted_frame (bars_of_closes long_closes))
                      blank_row) = None).
  { apply (@plotted_frame_warmup (bars_of_closes long_closes) 0 blank_row).
    - simpl. lia.
    - lia. }
  split; [exact Hc|]. split; [exact Hl|]. split; [exact Hm|].
  intros H.
  specialize (H _ _ Hc
                (nth 0 (plotted_frame (bars_of_closes long_closes))
                   blank_row)).
  destruct H as [H _].
  - apply nth_In. rewrite Hl. lia.
  - rewrite Hm in H. discriminate H.
Qed.

(** C2, amended.  The trim belongs to the interactive script: after the
    derived columns are computed, [get_stock_data] drops every row that
    still has an undefined cell, so that no row of the frame it returns
    has an undefined MA5, MA10, MA20, MACD, Signal, Hist or RSI,
    whatever series was fetched.  The static-chart script computes the
    same columns on the cleaned series and drops nothing: the frame it
    draws has every row of the cleaned series, in order, and its leading
    rows hold undefined cells, the first four for MA5, nine for MA10,
    nineteen for MA20 and thirteen for the RSI. *)
Theorem C2_trim_in_get_stock_data_only :
  forall (ak : string -> Z -> Z -> response) (symbol : string)
         (start_date end_date : Z),
    (forall r,
       In r (rows_of (fst (get_stock_data ak symbol start_date end_date)))
       -> derived_defined r) /\
    (forall df : frame,
       map base (plotted_frame df) = df /\
       length (plotted_frame df) = length df /\
       forall t d, t < length df ->
         (t < 4 -> MA5 (nth t (plotted_frame df) d) = None) /\
         (t < 9 -> MA10 (nth t (plotted_frame df) d) = None) /\
         (t < 19 -> MA20 (nth t (plotted_frame df) d) = None) /\
         (t < 13 -> RSI_ (nth t (plotted_frame df) d) = XNaN)).
Proof.
  intros ak symbol sd ed. split.
  - intros r. apply returned_rows_defined.
  - intros df. split; [|split].
    + unfold plotted_frame, add_indicators. cbv zeta.
      rewrite map_map. simpl. apply map_fst_combine_seq.
    + unfold plotted_frame. apply length_add_indicators.
    + intros t d Ht. apply plotted_frame_warmup, Ht.
Qed.

Lemma C2_witness :
  derived_defined
    (nth 0
       (rows_of (fst (get_stock_data
                        (answer_with (bars_of_closes long_closes))
                        "600519" 0 0)))
       blank_row) /\
  MA20 (nth 18 (plotted_frame (bars_of_closes long_closes)) blank_row)
    = None /\
  RSI_ (nth 12 (plotted_frame (bars_of_closes long_closes)) blank_row)
    = XNaN.
Proof.
  pose proof (C2_trim_in_get_stock_data_only
                (answer_with (bars_of_closes long_closes)) "600519"
                0%Z 0%Z) as [H1 H2].
  split.
  - apply H1. apply nth_In. vm_compute. lia.
  - assert (H18 : 18 < length (bars_of_closes long_closes))
      by (vm_compute; lia).
    assert (H12 : 12 < length (bars_of_closes long_closes))
      by (vm_compute; lia).
    destruct (H2 (bars_of_closes long_closes)) as (_ & _ & H3).
    destruct (H3 18 blank_row H18) as (_ & _ & Hma & _).
    destruct (H3 12 blank_row H12) as (_ & _ & _ & Hrsi).
    split; [apply Hma; lia | apply Hrsi; lia].
Defined.
